(** * Advanced_travel_agent.py: a shallow embedding and its properties

    The program is a single Streamlit script.  Its logic lives in four
    places: [SerperDevTool.search] (a memoising, retrying search client),
    the chunked generation block under the "Generate Plan" button,
    [generate_ics_content] (regular-expression extraction of "Day N"
    sections into calendar events) and the final display section.

    Modelling conventions.
    - A Python [str] is a list of Unicode code points ([list N]).
    - A Python [int] is a [Z].
    - Code that can raise is a computation in the [result] monad; a
      [try]/[except Exception] block is [try_except].
    - The outside world (HTTP endpoint, language-model agent) is an oracle
      passed as an argument; mutable objects ([self.cache],
      [st.session_state]) are threaded explicitly.
    - Everything written to the page ([st.warning], [st.error],
      [st.markdown], ...) is returned as a list of [ui] items. *)

From Stdlib Require Import ZArith NArith List Lia Bool.
From Stdlib Require Import Strings.String Strings.Ascii.
From Stdlib Require Import Numbers.DecimalString.
From Stdlib Require Import Sorting.Sorted.
From stdpp Require Import base option list gmap.

Local Open Scope Z_scope.

(** ** Strings *)

Abbreviation str := (list N) (only parsing).

(** An ASCII literal of the source, as code points. *)
Definition lit (s : string) : str :=
  List.map N_of_ascii (list_ascii_of_string s).

Definition nl : str := [10%N].

(** [str(n)] for an [int]. *)
Definition str_of_Z (z : Z) : str :=
  lit (NilZero.string_of_int (Z.to_int z)).

(** [sep.join(parts)] *)
Fixpoint join (sep : str) (parts : list str) : str :=
  match parts with
  | [] => []
  | [p] => p
  | p :: rest => p ++ sep ++ join sep rest
  end.

(** ** Exceptions *)

(** An exception is known by its class name and by [str(e)], which is what
    the f-strings of the program print. *)
Record exn : Type := mk_exn { exn_class : str; exn_descr : str }.

Inductive result (A : Type) : Type :=
| Ok (a : A)
| Raise (e : exn).
Arguments Ok {A} a.
Arguments Raise {A} e.

(** Sequencing: the first exception raised ends the computation.
    [x ← m; k] is stdpp's notation for [mbind]. *)
#[global] Instance result_bind : MBind result := fun A B k m =>
  match m with
  | Ok a => k a
  | Raise e => Raise e
  end.

#[global] Instance result_ret : MRet result := fun A a => Ok a.

(** [try: body  except Exception as e: handler(e)] *)
Definition try_except {A} (body : result A) (handler : exn -> A) : A :=
  match body with
  | Ok a => a
  | Raise e => handler e
  end.

(** ** [range] *)

(** Number of items of [range(start, stop, step)] for a positive step. *)
Definition range_len (start stop step : Z) : Z :=
  if start <? stop then (stop - start - 1) / step + 1 else 0.

Fixpoint range_from (start step : Z) (n : nat) : list Z :=
  match n with
  | O => []
  | S k => start :: range_from (start + step) step k
  end.

Definition py_range (start stop step : Z) : list Z :=
  range_from start step (Z.to_nat (range_len start stop step)).

(** [enumerate(xs)] *)
Fixpoint enumerate_from {A} (i : Z) (xs : list A) : list (Z * A) :=
  match xs with
  | [] => []
  | x :: rest => (i, x) :: enumerate_from (i + 1) rest
  end.

Definition enumerate {A} (xs : list A) : list (Z * A) := enumerate_from 0 xs.

(** ** Day ranges of the chunking loop *)

Definition chunk_size : Z := 3.

(** [end_day = min(start_day + chunk_size - 1, num_days)] *)
Definition end_day (num_days start_day : Z) : Z :=
  Z.min (start_day + chunk_size - 1) num_days.

(** The [(start_day, end_day)] pairs visited by
    [for i, start_day in enumerate(range(1, num_days + 1, chunk_size))]. *)
Definition day_ranges (num_days : Z) : list (Z * Z) :=
  List.map (fun start_day => (start_day, end_day num_days start_day))
           (py_range 1 (num_days + 1) chunk_size).

(** [covers s rs n]: the ranges [rs] tile the days [s..n] from left to
    right: the first starts at [s], each next one starts the day after the
    previous one ends, none is empty or longer than [chunk_size], and the
    last one ends at [n]. *)
Fixpoint covers (s : Z) (rs : list (Z * Z)) (n : Z) : Prop :=
  match rs with
  | [] => s = n + 1
  | (a, b) :: rest =>
      a = s /\ a <= b /\ b - a + 1 <= chunk_size /\ b <= n /\
      covers (b + 1) rest n
  end.

(** ** The search client: [class SerperDevTool] *)

(** One entry of [data["organic"]]; a missing key is [None] and
    [item.get(key, "")] reads it as the empty string. *)
Record organic_item : Type := mk_item {
  title : option str;
  snippet : option str;
  link : option str
}.

(** The body of a response as returned by [resp.json()]: only the
    ["organic"] key is read. *)
Record json_data : Type := mk_json { organic : option (list organic_item) }.

(** A [requests.Response]: what [raise_for_status()] and [json()] do. *)
Record response : Type := mk_response {
  raise_for_status : result unit;
  json : result json_data
}.

(** The HTTP endpoint: the outcome of the [n]-th [requests.post] issued
    (counting from 0) for a given query; [Raise] is a transport failure. *)
Definition endpoint : Type := nat -> str -> result response.

(** The tool object.  [cache] is [self.cache]; [posts] counts the calls of
    [requests.post] made so far. *)
Record serper : Type := mk_serper {
  cache : gmap (list N) (list N);
  posts : nat
}.

Definition get_or_empty (field : option str) : str := default [] field.

(** [f"{title}\n{snippet}\n{link}"] *)
Definition format_item (item : organic_item) : str :=
  get_or_empty (title item) ++ nl ++ get_or_empty (snippet item) ++ nl ++
  get_or_empty (link item).

Definition snippets_of (data : json_data) : list str :=
  match organic data with
  | Some items => List.map format_item items
  | None => []
  end.

(** Lines 41-51: the part of the [try] body that can raise. *)
Definition fetch (net : endpoint) (query : str) (n : nat) : result str :=
  resp ← net n query;
  _ ← raise_for_status resp;
  data ← json resp;
  mret (join (nl ++ nl) (snippets_of data)).

(** How one iteration of a loop inside a function ends. *)
Inductive flow (A : Type) : Type :=
| Return (a : A)
| Continue.
Arguments Return {A} a.
Arguments Continue {A}.

(** [f"Search failed after {retries} attempts: {e}"] *)
Definition search_failed (retries : Z) (e : exn) : str :=
  lit "Search failed after " ++ str_of_Z retries ++ lit " attempts: " ++
  exn_descr e.

(** One iteration of [for attempt in range(retries)]: the [try] block of
    lines 40-56. *)
Definition search_attempt (net : endpoint) (query : str) (retries attempt : Z)
    (self : serper) : flow str * serper :=
  let sent := mk_serper (cache self) (S (posts self)) in
  try_except
    (result ← fetch net query (posts self);
     mret (Return result, mk_serper (<[query := result]> (cache sent)) (posts sent)))
    (fun e =>
       if attempt =? retries - 1
       then (Return (search_failed retries e), sent)
       else (Continue, sent)).

(** The [for] loop; running off its end makes the function return [None]. *)
Fixpoint search_loop (net : endpoint) (query : str) (retries : Z)
    (attempts : list Z) (self : serper) : option str * serper :=
  match attempts with
  | [] => (None, self)
  | attempt :: later =>
      match search_attempt net query retries attempt self with
      | (Return text, self') => (Some text, self')
      | (Continue, self') => search_loop net query retries later self'
      end
  end.

(** [SerperDevTool.search(self, query, retries)]: the value returned
    ([None] is Python's [None]) and the tool afterwards. *)
Definition search (net : endpoint) (query : str) (retries : Z) (self : serper)
    : option str * serper :=
  match cache self !! query with
  | Some text => (Some text, self)
  | None => search_loop net query retries (py_range 0 retries 1) self
  end.

Definition default_retries : Z := 2.

(** ** Dates *)

(** A [datetime.date] is represented by its proleptic Gregorian ordinal
    ([date.toordinal()]: 1 is 0001-01-01).  The conversions follow
    CPython's [ymd_to_ord] and [ord_to_ymd]. *)
Definition date : Type := Z.

Definition MAXORDINAL : Z := 3652059.

Definition is_leap (y : Z) : bool :=
  (y mod 4 =? 0) && (negb (y mod 100 =? 0) || (y mod 400 =? 0)).

Definition days_before_year (y : Z) : Z :=
  let y1 := y - 1 in y1 * 365 + y1 / 4 - y1 / 100 + y1 / 400.

Definition days_before_month_tab : list Z :=
  [0; 0; 31; 59; 90; 120; 151; 181; 212; 243; 273; 304; 334].

Definition days_in_month_tab : list Z :=
  [0; 31; 28; 31; 30; 31; 30; 31; 31; 30; 31; 30; 31].

Definition days_before_month (y m : Z) : Z :=
  nth (Z.to_nat m) days_before_month_tab 0 +
  (if (2 <? m) && is_leap y then 1 else 0).

Definition days_in_month (y m : Z) : Z :=
  if (m =? 2) && is_leap y then 29 else nth (Z.to_nat m) days_in_month_tab 0.

Definition ymd_to_ord (y m d : Z) : date :=
  days_before_year y + days_before_month y m + d.

Definition ord_to_ymd (ordinal : date) : Z * Z * Z :=
  let o := ordinal - 1 in
  let n400 := o / 146097 in
  let n := o mod 146097 in
  let n100 := n / 36524 in
  let n := n mod 36524 in
  let n4 := n / 1461 in
  let n := n mod 1461 in
  let n1 := n / 365 in
  let n := n mod 365 in
  let year := n400 * 400 + 1 + n100 * 100 + n4 * 4 + n1 in
  if (n1 =? 4) || (n100 =? 4) then (year - 1, 12, 31)
  else
    let leapyear := (n1 =? 3) && (negb (n4 =? 24) || (n100 =? 3)) in
    let month := Z.shiftr (n + 50) 5 in
    let preceding :=
      nth (Z.to_nat month) days_before_month_tab 0 +
      (if (2 <? month) && leapyear then 1 else 0) in
    if n <? preceding
    then (year, month - 1, n - (preceding - days_in_month year (month - 1)) + 1)
    else (year, month, n - preceding + 1).

(** Zero-padded decimal, [%0{width}d] for a non-negative number. *)
Definition zero_pad (width : nat) (z : Z) : str :=
  let digits := str_of_Z z in
  repeat 48%N (width - length digits) ++ digits.

(** [str(d)] for a date: [YYYY-MM-DD]. *)
Definition isoformat (d : date) : str :=
  let '(y, m, dd) := ord_to_ymd d in
  zero_pad 4 y ++ lit "-" ++ zero_pad 2 m ++ lit "-" ++ zero_pad 2 dd.

Definition ValueError (msg : str) : exn := mk_exn (lit "ValueError") msg.
Definition OverflowError (msg : str) : exn := mk_exn (lit "OverflowError") msg.

(** [timedelta(days=n)]: the day count must fit a C [int] and have
    magnitude at most 999999999. *)
Definition timedelta_days (n : Z) : result Z :=
  if (n <? - 2147483648) || (2147483647 <? n)
  then Raise (OverflowError (lit "Python int too large to convert to C int"))
  else if (n <? - 999999999) || (999999999 <? n)
  then Raise (OverflowError
          (lit "days=" ++ str_of_Z n ++ lit "; must have magnitude <= 999999999"))
  else Ok n.

(** [(start_dt + delta).date()] where [start_dt] is midnight of [d]: the
    result must lie between 0001-01-01 and 9999-12-31. *)
Definition date_add (d : date) (delta : Z) : result date :=
  let o := d + delta in
  if (1 <=? o) && (o <=? MAXORDINAL) then Ok o
  else Raise (OverflowError (lit "date value out of range")).

(** ** The page: widgets, session and output *)

(** The values read from the widgets on one run of the script. *)
Record inputs : Type := mk_inputs {
  destination : str;
  num_days : Z;
  travel_style : str;
  arrival_date : date;
  search_mode : str
}.

(** [st.session_state] *)
Record session : Type := mk_session {
  itinerary : option str;
  full_response : str
}.

Definition new_session : session := mk_session None [].

(** The calendar built by [generate_ics_content]: the component tree whose
    serialisation [cal.to_ical()] is handed to the download button. *)
Record event : Type := mk_event {
  summary : str;
  description : str;
  dtstart : date;
  dtend : date
}.

Record calendar : Type := mk_calendar {
  prodid : str;
  version : str;
  events : list event
}.

(** What the script writes to the page. *)
Inductive ui : Type :=
| Warning (msg : str)
| Error (msg : str)
| Status (label : str)
| Divider
| Markdown (body : str)
| DownloadButton (label : str) (data : calendar) (file_name : str) (mime : str).

(** ** Chunked generation *)

(** An item yielded by [planner_ai.run(query, stream=True)]: either an
    object, with the value of its [content] attribute when it has one, or a
    plain [str]. *)
Inductive run_item : Type :=
| RunEvent (content : option str)
| RunText (s : str).

(** A run of the agent: the items it yields and, possibly, the exception
    that ends the iteration. *)
Record run_stream : Type := mk_stream {
  yielded : list run_item;
  raised : option exn
}.

Definition agent : Type := str -> run_stream.

Definition truthy (s : str) : bool :=
  match s with
  | [] => false
  | _ :: _ => true
  end.

(** Lines 153-156. *)
Definition add_chunk (chunk_response : str) (chunk : run_item) : str :=
  match chunk with
  | RunEvent (Some content) =>
      if truthy content then chunk_response ++ content else chunk_response
  | RunEvent None => chunk_response
  | RunText s => chunk_response ++ s
  end.

(** Lines 151-156: the response text of one chunk, unless the run raises. *)
Definition run_chunk (stream : run_stream) : result str :=
  let chunk_response := fold_left add_chunk (yielded stream) [] in
  match raised stream with
  | Some e => Raise e
  | None => Ok chunk_response
  end.

(** An interpolated value that is either a [str] or [None]. *)
Definition format_value (v : option str) : str :=
  match v with
  | Some s => s
  | None => lit "None"
  end.

(** The text shared by the two f-strings of lines 146 and 149. *)
Definition plan_request (inp : inputs) (start_day end_day : Z) : str :=
  lit "Plan Day " ++ str_of_Z start_day ++ lit " to Day " ++ str_of_Z end_day ++
  lit " of a " ++ str_of_Z (num_days inp) ++ lit "-day " ++ travel_style inp ++
  lit " trip to " ++ destination inp ++ lit " starting " ++
  isoformat (arrival_date inp) ++ lit ".".

Definition first_chunk_tail (search_results : option str) : str :=
  lit " Include Essential Info and Weather. Use these search results:" ++ nl ++
  format_value search_results.

Definition later_chunk_tail : str :=
  lit " Only include Day-by-Day Itinerary, skip Essential Info and Weather.".

(** Lines 142-149. *)
Definition query_chunk (inp : inputs) (search_results : option str)
    (i start_day : Z) : str :=
  let last_day := end_day (num_days inp) start_day in
  if i =? 0
  then plan_request inp start_day last_day ++ first_chunk_tail search_results
  else plan_request inp start_day last_day ++ later_chunk_tail.

(** The loop of lines 141-157, started with the text accumulated so far. *)
Fixpoint chunk_loop (model : agent) (inp : inputs) (search_results : option str)
    (chunks : list (Z * Z)) (full_itinerary : str) : result str :=
  match chunks with
  | [] => Ok full_itinerary
  | (i, start_day) :: later =>
      chunk_response ← run_chunk (model (query_chunk inp search_results i start_day));
      chunk_loop model inp search_results later
                 (full_itinerary ++ (chunk_response ++ nl ++ nl))
  end.

Definition search_modes : list str :=
  [lit "Always search first"; lit "Smart search (recommended)"].

Definition essential_query (inp : inputs) : str :=
  lit "Weather, visa rules, top attractions for " ++ destination inp ++
  lit " in 2026".

(** Lines 133-136. *)
Definition initial_search (net : endpoint) (inp : inputs) (tool : serper)
    : option str * serper :=
  if bool_decide (search_mode inp ∈ search_modes)
  then search net (essential_query inp) default_retries tool
  else (Some [], tool).

(** Lines 133-160: the body of the [try]; the new itinerary, unless
    something raises. *)
Definition plan (net : endpoint) (model : agent) (inp : inputs) (tool : serper)
    : result str * serper :=
  let '(search_results, tool') := initial_search net inp tool in
  (chunk_loop model inp search_results
     (enumerate (py_range 1 (num_days inp + 1) chunk_size)) [],
   tool').

(** Lines 125-163: what a click on "Generate Plan" does to the session,
    to the tool and to the page. *)
Definition generate_plan (net : endpoint) (model : agent) (inp : inputs)
    (tool : serper) (ss : session) : session * serper * list ui :=
  if negb (truthy (destination inp))
  then (ss, tool, [Warning (lit "Enter a destination.")])
  else
    let '(outcome, tool') := plan net model inp tool in
    let status := Status (lit "Planning " ++ destination inp ++ lit "...") in
    try_except
      (full_itinerary ← outcome;
       mret (mk_session (Some full_itinerary) full_itinerary, tool', [status]))
      (fun e =>
         (ss, tool', [status; Error (lit "Error during planning: " ++ exn_descr e)])).

(** ** Regular expressions: a backtracking matcher in the manner of [re] *)

(** The fragment of the pattern language the program uses.  Repetition is
    over a single character class, which is all the two patterns need. *)
Inductive regex : Type :=
| Class (p : N -> bool)          (* one code point of a class *)
| Cat (r1 r2 : regex)            (* r1 then r2 *)
| Alt (r1 r2 : regex)            (* r1 or else r2 *)
| Opt (r : regex)                (* r or else nothing *)
| Star (p : N -> bool)           (* zero or more of a class, greedy *)
| Plus (p : N -> bool)           (* one or more of a class, greedy *)
| LazyStar (p : N -> bool)       (* zero or more of a class, lazy *)
| Group (n : nat) (r : regex)    (* the n-th capturing group *)
| Lookahead (r : regex)          (* positive lookahead *)
| EndAnchor.                     (* the end anchor, without re.MULTILINE *)

(** The matcher's state: the text still to be read and the groups
    captured so far (latest first). *)
Record mstate : Type := mk_mstate {
  rest : str;
  caps : list (nat * str)
}.

(** The inputs left after a greedy repetition of class [p], longest
    repetition first. *)
Fixpoint star_greedy (p : N -> bool) (s : str) : list str :=
  match s with
  | c :: s' => if p c then star_greedy p s' ++ [s] else [s]
  | [] => [[]]
  end.

(** The inputs left after a lazy repetition of class [p], shortest
    repetition first. *)
Fixpoint star_lazy (p : N -> bool) (s : str) : list str :=
  s :: match s with
       | c :: s' => if p c then star_lazy p s' else []
       | [] => []
       end.

Definition plus_greedy (p : N -> bool) (s : str) : list str :=
  match s with
  | c :: s' => if p c then star_greedy p s' else []
  | [] => []
  end.

(** [$] matches at the end of the text and just before a final newline. *)
Definition at_end (s : str) : bool :=
  match s with
  | [] => true
  | [c] => (c =? 10)%N
  | _ => false
  end.

(** The part of [before] consumed to reach its suffix [after]. *)
Definition consumed (before after : str) : str :=
  firstn (length before - length after) before.

Definition move (st : mstate) (s : str) : mstate := mk_mstate s (caps st).

(** All the ways [r] matches at the start of [rest st], in the order in
    which a backtracking matcher tries them; the head is the match [re]
    reports. *)
Fixpoint run (r : regex) (st : mstate) : list mstate :=
  match r with
  | Class p =>
      match rest st with
      | c :: s' => if p c then [move st s'] else []
      | [] => []
      end
  | Cat r1 r2 => flat_map (run r2) (run r1 st)
  | Alt r1 r2 => run r1 st ++ run r2 st
  | Opt r1 => run r1 st ++ [st]
  | Star p => List.map (move st) (star_greedy p (rest st))
  | Plus p => List.map (move st) (plus_greedy p (rest st))
  | LazyStar p => List.map (move st) (star_lazy p (rest st))
  | Group n r1 =>
      List.map (fun st' =>
                  mk_mstate (rest st') ((n, consumed (rest st) (rest st')) :: caps st'))
               (run r1 st)
  | Lookahead r1 =>
      match run r1 st with
      | [] => []
      | _ :: _ => [st]
      end
  | EndAnchor => if at_end (rest st) then [st] else []
  end.

(** The match found at the very start of [s], if any. *)
Definition match_here (r : regex) (s : str) : option mstate :=
  head (run r (mk_mstate s [])).

(** [m.group(n)]; a group that took no part in the match reads as the
    empty string, as in the tuples of [findall]. *)
Fixpoint group (n : nat) (cs : list (nat * str)) : str :=
  match cs with
  | [] => []
  | (k, s) :: cs' => if Nat.eqb k n then s else group n cs'
  end.

(** A match object: its span in the text and its groups. *)
Record rmatch : Type := mk_rmatch {
  m_start : nat;
  m_end : nat;
  m_caps : list (nat * str)
}.

(** The scan behind [finditer], [findall] and [sub]: [s] is the text from
    position [pos] on, and [skip] counts the characters of [s] that still
    belong to the match found last.  A search resumes where the previous
    match ended, or one character further after an empty match. *)
Fixpoint scan (r : regex) (pos skip : nat) (s : str) {struct s} : list rmatch :=
  match skip with
  | S k =>
      match s with
      | [] => []
      | _ :: s' => scan r (S pos) k s'
      end
  | O =>
      match match_here r s with
      | Some st' =>
          let len := (length s - length (rest st'))%nat in
          mk_rmatch pos (pos + len) (caps st') ::
          match s with
          | [] => []
          | _ :: s' => scan r (S pos) (len - 1) s'
          end
      | None =>
          match s with
          | [] => []
          | _ :: s' => scan r (S pos) 0 s'
          end
      end
  end.

Definition finditer (r : regex) (text : str) : list rmatch := scan r 0 0 text.

(** [text[i:j]] *)
Definition slice (text : str) (i j : nat) : str := firstn (j - i) (skipn i text).

(** [pattern.sub(repl, text)]: the text between the matches is kept, each
    match is replaced. *)
Fixpoint sub_from (repl : rmatch -> str) (text : str) (pos : nat)
    (ms : list rmatch) : str :=
  match ms with
  | [] => skipn pos text
  | m :: ms' => slice text pos (m_start m) ++ repl m ++ sub_from repl text (m_end m) ms'
  end.

Definition re_sub (r : regex) (repl : rmatch -> str) (text : str) : str :=
  sub_from repl text 0 (finditer r text).

(** ** Character classes *)

Local Open Scope N_scope.

(** [\s], and the characters removed by [str.strip()]. *)
Definition is_space (c : N) : bool :=
  ((9 <=? c) && (c <=? 13)) || ((28 <=? c) && (c <=? 32)) ||
  (c =? 133) || (c =? 160) || (c =? 5760) ||
  ((8192 <=? c) && (c <=? 8202)) ||
  (c =? 8232) || (c =? 8233) || (c =? 8239) || (c =? 8287) || (c =? 12288).

Definition not_space (c : N) : bool := negb (is_space c).

(** [[\s\S]] *)
Definition any_char (c : N) : bool := is_space c || not_space c.

(** A literal character. *)
Definition chr (a : ascii) (c : N) : bool := c =? N_of_ascii a.

(** An ASCII letter under [re.IGNORECASE]: either case matches.  (None of
    [d], [a], [y] has a further case variant outside ASCII.) *)
Definition chr_ic (lower : ascii) (c : N) : bool :=
  (c =? N_of_ascii lower) || (c =? N_of_ascii lower - 32).

(** [[\s–:]]: white space, the en dash U+2013, or a colon. *)
Definition is_sep (c : N) : bool := is_space c || (c =? 8211) || (c =? 58).

(** The line boundaries of [str.splitlines()]. *)
Definition is_linebreak (c : N) : bool :=
  ((10 <=? c) && (c <=? 13)) || ((28 <=? c) && (c <=? 30)) ||
  (c =? 133) || (c =? 8232) || (c =? 8233).

Local Close Scope N_scope.

(** ** String methods *)

Fixpoint lstrip (s : str) : str :=
  match s with
  | c :: s' => if is_space c then lstrip s' else s
  | [] => []
  end.

Definition rstrip (s : str) : str := rev (lstrip (rev s)).

Definition strip (s : str) : str := rstrip (lstrip s).

Fixpoint startswith (s prefix : str) : bool :=
  match prefix, s with
  | [], _ => true
  | p :: prefix', c :: s' => (c =? p)%N && startswith s' prefix'
  | _ :: _, [] => false
  end.

(** [s.splitlines()]; [line] is the current line, latest character first. *)
Fixpoint splitlines_from (line : str) (s : str) : list str :=
  match s with
  | [] => if truthy line then [rev line] else []
  | c :: s' =>
      if (c =? 13)%N then
        match s' with
        | 10%N :: s'' => rev line :: splitlines_from [] s''
        | _ => rev line :: splitlines_from [] s'
        end
      else if is_linebreak c then rev line :: splitlines_from [] s'
      else splitlines_from (c :: line) s'
  end.

Definition splitlines (s : str) : list str := splitlines_from [] s.

(** [s.replace(' ', '_')] *)
Definition spaces_to_underscores (s : str) : str :=
  List.map (fun c => if (c =? 32)%N then 95%N else c) s.

(** ** Decimal digits *)

(** [\d] and [int()] accept every Unicode decimal digit (category Nd).
    Which code points beyond ASCII are decimal digits, and with what value,
    depends on the Unicode version of the interpreter; that table is a
    parameter of the development. *)
Class unicode_db : Type := { nonascii_decimal : N -> option Z }.

Section Extractor.
Context {udb : unicode_db}.

Definition decimal_value (c : N) : option Z :=
  if (c <? 128)%N
  then if (48 <=? c)%N && (c <=? 57)%N then Some (Z.of_N c - 48) else None
  else nonascii_decimal c.

(** [\d] *)
Definition is_digit (c : N) : bool :=
  match decimal_value c with
  | Some _ => true
  | None => false
  end.

Definition int_max_str_digits : nat := 4300.

Definition digits_value (s : str) : Z :=
  fold_left (fun acc c => 10 * acc + default 0 (decimal_value c)) s 0.

(** [int(s)] for a non-empty string of decimal digits, which is what
    group 1 of the day pattern captures.  Longer strings than
    [int_max_str_digits] are refused by the interpreter. *)
Definition py_int (s : str) : result Z :=
  if Nat.ltb int_max_str_digits (length s)
  then Raise (ValueError
         (lit "Exceeds the limit (4300 digits) for integer string conversion: value has " ++
          str_of_Z (Z.of_nat (length s)) ++
          lit " digits; use sys.set_int_max_str_digits() to increase the limit"))
  else Ok (digits_value s).

(** ** The calendar extractor: [generate_ics_content] *)

(** The optional heading marker that opens the pattern: two [#] and any
    white space, or nothing. *)
Definition heading : regex :=
  Opt (Cat (Class (chr "#")) (Cat (Class (chr "#")) (Star is_space))).

(** "Day\s*\d+" under [re.IGNORECASE]; the digits are group 1 when
    [capture] is set. *)
Definition day_marker (capture : bool) : regex :=
  Cat (Class (chr_ic "d")) (Cat (Class (chr_ic "a")) (Cat (Class (chr_ic "y"))
  (Cat (Star is_space)
       (if capture then Group 1 (Plus is_digit) else Plus is_digit)))).

(** The lookahead that closes the pattern: the next day marker (with its
    optional heading), or else the end of the text. *)
Definition next_day_or_end : regex :=
  Lookahead (Alt (Cat heading (day_marker false)) EndAnchor).

(** What follows the day marker: the separators [[\s–:]*], the lazy group
    [([\s\S]*?)] and the lookahead. *)
Definition day_text : regex :=
  Cat (Star is_sep) (Cat (Group 2 (LazyStar any_char)) next_day_or_end).

(** The whole pattern of line 66: heading, day marker, day text. *)
Definition day_pattern : regex :=
  Cat heading (Cat (day_marker true) day_text).

(** [day_pattern.findall(plan_text)]: the pairs (group 1, group 2). *)
Definition findall_days (plan_text : str) : list (str * str) :=
  List.map (fun m => (group 1 (m_caps m), group 2 (m_caps m)))
           (finditer day_pattern plan_text).

(** Lines 61-63: the calendar before any event is added. *)
Definition empty_calendar : calendar :=
  mk_calendar (lit "-//Global AI Travel Planner//") (lit "2.0") [].

(** Lines 72-77: the event of one match, unless the date arithmetic
    raises. *)
Definition day_event (start_dt : date) (destination : str) (day : str * str)
    : result event :=
  let '(d_num, content) := day in
  let summary := lit "Day " ++ d_num ++ lit " in " ++ destination in
  let description := strip content in
  n ← py_int d_num;
  delta ← timedelta_days (n - 1);
  dtstart ← date_add start_dt delta;
  n' ← py_int d_num;
  delta' ← timedelta_days n';
  dtend ← date_add start_dt delta';
  mret (mk_event summary description dtstart dtend).

(** The loop of lines 71-77. *)
Fixpoint add_days (start_dt : date) (destination : str) (days : list (str * str))
    (cal : calendar) : result calendar :=
  match days with
  | [] => Ok cal
  | day :: later =>
      e ← day_event start_dt destination day;
      add_days start_dt destination later
               (mk_calendar (prodid cal) (version cal) (events cal ++ [e]))
  end.

(** Lines 60-79: the body of the [try]. *)
Definition build_calendar (plan_text : str) (start_date_input : date)
    (destination : str) : result calendar :=
  let start_dt := start_date_input in
  let cal := empty_calendar in
  let days := findall_days plan_text in
  add_days start_dt destination days cal.

(** f"ICS generation failed: {e}" *)
Definition ics_failed (e : exn) : str :=
  lit "ICS generation failed: " ++ exn_descr e.

(** [generate_ics_content]: the calendar ([None] is Python's [None]) and
    the warnings written to the page. *)
Definition generate_ics_content (plan_text : str) (start_date_input : date)
    (destination : str) : option calendar * list ui :=
  try_except
    (cal ← build_calendar plan_text start_date_input destination;
     mret (Some cal, []))
    (fun e => (None, [Warning (ics_failed e)])).

(** ** Display *)

(** "(https?://\S+)" *)
Definition url_pattern : regex :=
  Group 1
    (Cat (Class (chr "h")) (Cat (Class (chr "t")) (Cat (Class (chr "t"))
    (Cat (Class (chr "p")) (Cat (Opt (Class (chr "s")))
    (Cat (Class (chr ":")) (Cat (Class (chr "/")) (Cat (Class (chr "/"))
         (Plus not_space))))))))).

(** The replacement "[\1](\1)". *)
Definition link_markup (m : rmatch) : str :=
  lit "[" ++ group 1 (m_caps m) ++ lit "](" ++ group 1 (m_caps m) ++ lit ")".

Definition is_flight_call (line : str) : bool :=
  startswith (strip line) (lit "getFlightAvailability(").

(** [display_full_itinerary] *)
Definition display_full_itinerary (itinerary_text : str) : list ui :=
  let lines := splitlines itinerary_text in
  let filtered_lines := List.filter (fun line => negb (is_flight_call line)) lines in
  let clean_text := join nl filtered_lines in
  let clean_text := re_sub url_pattern link_markup clean_text in
  [Markdown clean_text].

Definition sync_button (inp : inputs) (ics_data : calendar) : ui :=
  DownloadButton ([128197%N] ++ lit " Sync to Calendar") ics_data
    (spaces_to_underscores (destination inp) ++ lit "_trip.ics")
    (lit "text/calendar").

(** Lines 174-184.  The bytes of a serialised calendar are never empty, so
    [if ics_data] holds exactly when a calendar was returned. *)
Definition show_itinerary (inp : inputs) (ss : session) : list ui :=
  match itinerary ss with
  | Some text =>
      if truthy text then
        let shown := display_full_itinerary text in
        let '(ics_data, warnings) :=
          generate_ics_content text (arrival_date inp) (destination inp) in
        [Divider] ++ shown ++ warnings ++
        match ics_data with
        | Some cal => [sync_button inp cal]
        | None => []
        end
      else []
  | None => []
  end.

End Extractor.

(** ** Day markers, stated without the matcher *)

Section Markers.
Context {udb : unicode_db}.

(** Whether [s] starts with white space, possibly none, and then a
    decimal digit. *)
Fixpoint digit_after_spaces (s : str) : bool :=
  match s with
  | c :: s' => is_digit c || (is_space c && digit_after_spaces s')
  | [] => false
  end.

(** Whether [s] starts with the letters of "day" in any case, white space,
    possibly none, and a decimal digit. *)
Definition marker_at (s : str) : bool :=
  match s with
  | d :: a :: y :: s' =>
      chr_ic "d" d && chr_ic "a" a && chr_ic "y" y && digit_after_spaces s'
  | _ => false
  end.

(** Whether such a marker occurs anywhere in [s]. *)
Fixpoint has_day_marker (s : str) : bool :=
  marker_at s ||
  match s with
  | _ :: s' => has_day_marker s'
  | [] => false
  end.

(** The characters an optional heading can consist of. *)
Definition heading_char (c : N) : bool := chr "#" c || is_space c.

(** [d_num] is a run of decimal digits that follows the three letters of
    the marker starting [s] and the white space after them. *)
Definition names_day (s d_num : str) : Prop :=
  exists w tl,
    skipn 3 s = w ++ d_num ++ tl /\
    forallb is_space w = true /\ forallb is_digit d_num = true /\ d_num <> [].

(** The matcher's state once group 2 has captured the text of [st] up to
    its suffix [t]. *)
Definition capture_text (st : mstate) (t : str) : mstate :=
  mk_mstate t ((2%nat, consumed (rest st) t) :: caps st).

End Markers.

(** A table without decimal digits beyond ASCII, for evaluating the
    extractor on ASCII text. *)
Definition ascii_digits : unicode_db := {| nonascii_decimal := fun _ => None |}.

(** ** Sample collaborators and inputs *)

Definition request_timeout : exn :=
  mk_exn (lit "ReadTimeout") (lit "Read timed out.").

Definition one_hit : json_data :=
  mk_json (Some [mk_item (Some (lit "Rome")) (Some (lit "Eternal city")) None]).

(** An endpoint that never answers. *)
Definition dead_endpoint : endpoint := fun _ _ => Raise request_timeout.

(** An endpoint whose first request times out and which answers from then
    on. *)
Definition flaky_endpoint : endpoint := fun n _ =>
  match n with
  | O => Raise request_timeout
  | S _ => Ok (mk_response (Ok tt) (Ok one_hit))
  end.

Definition good_endpoint : endpoint := fun _ _ =>
  Ok (mk_response (Ok tt) (Ok one_hit)).

Definition new_tool : serper := mk_serper ∅ 0.

Definition weather_query : str := lit "Weather in Rome".

(** The text [format_item] and [join] make of [one_hit]. *)
Definition one_hit_text : str := lit "Rome" ++ nl ++ lit "Eternal city" ++ nl.

Definition trip (days : Z) : inputs :=
  mk_inputs (lit "Rome") days (lit "Balanced") (ymd_to_ord 2026 3 10)
            (lit "Always search first").

(** An agent that answers every request with the one fragment [A]. *)
Definition terse_agent : agent := fun _ => mk_stream [RunText (lit "A")] None.

Definition agent_down : exn := mk_exn (lit "ModelProviderError") (lit "rate limited").

(** An agent that answers the request for the first days and fails, after
    a first fragment, on any other. *)
Definition failing_agent : agent := fun query =>
  if startswith query (lit "Plan Day 1 ")
  then mk_stream [RunText (lit "Day 1: Forum"); RunEvent (Some (lit " and more"))] None
  else mk_stream [RunText (lit "Day 4")] (Some agent_down).

Definition old_session : session :=
  mk_session (Some (lit "Day 1: Louvre")) (lit "Day 1: Louvre").

Definition museum_plan : str := lit "Day 1: Visit museum" ++ nl ++ lit "Day 2: Relax".

Definition march_10 : date := ymd_to_ord 2026 3 10.

(** An itinerary whose only day number is beyond the calendar. *)
Definition far_plan : str := lit "Day 1000000000".

Definition far_session : session := mk_session (Some far_plan) far_plan.

(** An endpoint that answers without the "organic" key. *)
Definition bare_endpoint : endpoint := fun _ _ =>
  Ok (mk_response (Ok tt) (Ok (mk_json None))).

(** The text one streamed item contributes to the response of its chunk. *)
Definition item_text (chunk : run_item) : str :=
  match chunk with
  | RunEvent (Some content) => content
  | RunEvent None => []
  | RunText s => s
  end.

(** An agent that streams a mixed run of items for every request. *)
Definition chatty_agent : agent := fun _ =>
  mk_stream [RunText (lit "Day 1"); RunEvent None; RunEvent (Some []);
             RunEvent (Some (lit ": Forum"))] None.

(** ** Further notions about the extractor *)

Section ExtractorNotions.
Context {udb : unicode_db}.

(** Whether the day number [d_num] can be turned into the two dates of
    its event when the trip starts on [start]: the digit string is within
    the interpreter's limit and both [start + k - 1] and [start + k] are
    dates. *)
Definition day_in_range (start : date) (d_num : str) : bool :=
  Nat.leb (length d_num) int_max_str_digits &&
  (1 <=? start + (digits_value d_num - 1)) &&
  (start + digits_value d_num <=? MAXORDINAL).

(** Whether [s] is empty or starts with something else than white space. *)
Definition starts_clean (s : str) : bool :=
  match s with
  | [] => true
  | c :: _ => negb (is_space c)
  end.

(** Whether [s] has no white space at either end. *)
Definition trimmed (s : str) : bool := starts_clean s && starts_clean (rev s).

End ExtractorNotions.

Definition plain_note : str := lit "Pack light and enjoy".

Definition note_session : session := mk_session (Some plain_note) plain_note.

(** ** Further notions about the display and the script *)

(** [sub in s] *)
Fixpoint contains (s sub : str) : bool :=
  startswith s sub ||
  match s with
  | _ :: s' => contains s' sub
  | [] => false
  end.


(** Whether the letter [h] does not occur in [s]. *)
Definition no_h (s : str) : bool := forallb (fun c => negb (c =? 104)%N) s.

Section Script.
Context {udb : unicode_db}.

(** Lines 100-184: one run of the script from the "AI setup" on, for the
    two keys typed in the sidebar.  [generate_button] tells whether the
    run was triggered by a click on "Generate Plan".  The tool is created
    anew, with an empty cache, on every run.  The result is the session
    afterwards, the number of requests posted and what is written to the
    page. *)
Definition script_run (net : endpoint) (model : agent) (or_key serp_key : str)
    (inp : inputs) (generate_button : bool) (ss : session)
    : session * nat * list ui :=
  let '(ss', posted, written) :=
    if truthy or_key && truthy serp_key then
      let serp_tool := new_tool in
      if generate_button then
        let '(ss', tool', out) := generate_plan net model inp serp_tool ss in
        (ss', posts tool', out)
      else (ss, 0%nat, [])
    else (ss, 0%nat, []) in
  (ss', posted, written ++ show_itinerary inp ss').

End Script.


(** Whether [s] is empty or starts with white space: what ends a link. *)
Definition ends_link (s : str) : bool :=
  match s with
  | [] => true
  | c :: _ => is_space c
  end.

Definition url_schemes : list str := [lit "http://"; lit "https://"].

(** * Properties *)

(** ** The exception monad *)

Lemma bind_Ok {A B} (a : A) (k : A -> result B) : (Ok a ≫= k) = k a.
Proof. reflexivity. Qed.

Lemma bind_Raise {A B} (e : exn) (k : A -> result B) : (Raise e ≫= k) = Raise e.
Proof. reflexivity. Qed.

Lemma bind_Ok_inv {A B} (m : result A) (k : A -> result B) (b : B) :
  (m ≫= k) = Ok b -> exists a, m = Ok a /\ k a = Ok b.
Proof. destruct m as [a|e]; [eauto | discriminate]. Qed.

(** ** Day ranges *)

Lemma range_len_pos (s n : Z) :
  s <= n -> exists k, Z.to_nat (range_len s (n + 1) chunk_size) = S k.
Proof.
  intros Hs. unfold range_len, chunk_size.
  destruct (Z.ltb_spec s (n + 1)) as [_|Hge]; [|lia].
  exists (Z.to_nat ((n + 1 - s - 1) / 3)).
  assert (0 <= (n + 1 - s - 1) / 3) by (apply Z.div_pos; lia).
  lia.
Qed.

Lemma range_len_next (s n : Z) (k : nat) :
  s <= n ->
  Z.to_nat (range_len s (n + 1) chunk_size) = S k ->
  Z.to_nat (range_len (s + chunk_size) (n + 1) chunk_size) = k.
Proof.
  unfold range_len, chunk_size. intros Hs.
  destruct (Z.ltb_spec s (n + 1)) as [_|Hge]; [|lia].
  destruct (Z.ltb_spec (s + 3) (n + 1)) as [Hlt|Hge]; intros Hk.
  - replace (n + 1 - s - 1) with ((n + 1 - (s + 3) - 1) + 1 * 3) in Hk by lia.
    rewrite Z.div_add in Hk by lia.
    assert (0 <= (n + 1 - (s + 3) - 1) / 3) by (apply Z.div_pos; lia).
    lia.
  - assert ((n + 1 - s - 1) / 3 = 0) as E by (apply Z.div_small; lia).
    rewrite E in Hk. simpl in Hk. lia.
Qed.

Lemma range_len_last (s n : Z) :
  s <= n -> n < s + chunk_size ->
  Z.to_nat (range_len s (n + 1) chunk_size) = 1%nat.
Proof.
  unfold range_len, chunk_size. intros Hs Hn.
  destruct (Z.ltb_spec s (n + 1)) as [_|Hge]; [|lia].
  assert ((n + 1 - s - 1) / 3 = 0) as E by (apply Z.div_small; lia).
  rewrite E. reflexivity.
Qed.

(** The ranges produced from any first day [s <= n] tile [s..n]. *)
Lemma ranges_cover (n : Z) (k : nat) : forall s,
  s <= n ->
  Z.to_nat (range_len s (n + 1) chunk_size) = k ->
  covers s (List.map (fun d => (d, end_day n d)) (range_from s chunk_size k)) n.
Proof.
  induction k as [|k IH]; intros s Hs Hk.
  - destruct (range_len_pos s n Hs) as [k' Hk']. congruence.
  - destruct (Z_lt_le_dec n (s + chunk_size)) as [Hlast|Hmore].
    + rewrite (range_len_last s n Hs Hlast) in Hk.
      injection Hk as <-. simpl.
      unfold end_day, chunk_size in *. repeat split; lia.
    + pose proof (range_len_next s n k Hs Hk) as Hk'.
      specialize (IH (s + chunk_size) Hmore Hk').
      simpl.
      replace (end_day n s + 1) with (s + chunk_size)
        by (unfold end_day, chunk_size in *; lia).
      unfold end_day at 1. unfold end_day at 1. unfold end_day at 1.
      unfold chunk_size at 1 2 3 4. unfold chunk_size in Hmore.
      repeat split; try lia. exact IH.
Qed.

Lemma covers_last (rs : list (Z * Z)) : forall s n,
  covers s rs n -> rs <> [] -> exists a, List.last rs (0, 0) = (a, n).
Proof.
  induction rs as [|[a b] rest IH]; intros s n Hc Hne; [congruence|].
  destruct Hc as (-> & Hab & Hlen & Hbn & Hrest).
  destruct rest as [|r rest'].
  - simpl in Hrest. exists s. simpl. f_equal. lia.
  - destruct (IH _ _ Hrest) as [a' Ha']; [discriminate|].
    exists a'. exact Ha'.
Qed.

Lemma day_ranges_cover (n : Z) : 1 <= n -> covers 1 (day_ranges n) n.
Proof.
  intros Hn. unfold day_ranges, py_range. now apply ranges_cover.
Qed.

Lemma enumerate_from_map {A} (xs : list A) : forall i,
  List.map snd (enumerate_from i xs) = xs.
Proof. induction xs as [|y ys IH]; intros i; simpl; [|rewrite IH]; reflexivity. Qed.

(** The ranges the loop visits are [day_ranges]. *)
Lemma loop_day_ranges (n : Z) :
  List.map (fun c => (snd c, end_day n (snd c)))
           (enumerate (py_range 1 (n + 1) chunk_size)) = day_ranges n.
Proof.
  unfold day_ranges, enumerate.
  rewrite <- (enumerate_from_map (py_range 1 (n + 1) chunk_size) 0) at 2.
  now rewrite map_map.
Qed.

(** C1. For every number of days from 1 to 14 the day ranges visited by
    the chunking loop are [day_ranges]; they start at day 1, are
    contiguous and non-overlapping, have at most three days each and end
    exactly at the last day; each range ends at
    [min(start_day + chunk_size - 1, num_days)], which never exceeds the
    number of days; a one-day trip has the single range (1, 1). *)
Theorem C1_day_ranges_partition (numDays : Z) :
  1 <= numDays <= 14 ->
  List.map (fun c => (snd c, end_day numDays (snd c)))
           (enumerate (py_range 1 (numDays + 1) chunk_size)) = day_ranges numDays /\
  covers 1 (day_ranges numDays) numDays /\
  (exists e rest, day_ranges numDays = (1, e) :: rest) /\
  (exists s, List.last (day_ranges numDays) (0, 0) = (s, numDays)) /\
  (forall s e, In (s, e) (day_ranges numDays) ->
     e = Z.min (s + chunk_size - 1) numDays /\ e <= numDays /\ e - s + 1 <= 3) /\
  day_ranges 1 = [(1, 1)].
Proof.
  intros [Hlo Hhi].
  pose proof (day_ranges_cover numDays Hlo) as Hc.
  assert (exists e rest, day_ranges numDays = (1, e) :: rest) as Hhd.
  { unfold day_ranges, py_range.
    destruct (range_len_pos 1 numDays Hlo) as [k ->]. simpl. eauto. }
  split; [apply loop_day_ranges|].
  split; [exact Hc|]. split; [exact Hhd|]. split.
  - destruct Hhd as (e & rest & Heq).
    apply (covers_last _ 1 numDays Hc). rewrite Heq. discriminate.
  - split; [|reflexivity].
    intros s e Hin. unfold day_ranges in Hin.
    apply in_map_iff in Hin as (d & Heq & _).
    injection Heq as <- <-. unfold end_day, chunk_size. lia.
Qed.

Lemma C1_day_ranges_partition_witness :
  1 <= 14 <= 14 /\
  covers 1 (day_ranges 14) 14 /\
  day_ranges 14 = [(1, 3); (4, 6); (7, 9); (10, 12); (13, 14)].
Proof.
  split; [lia|]. split; [|reflexivity].
  apply (proj2 (C1_day_ranges_partition 14 ltac:(lia))).
Defined.

(** ** The search client *)

Lemma search_attempt_ok net query retries attempt self text :
  fetch net query (posts self) = Ok text ->
  search_attempt net query retries attempt self =
    (Return text, mk_serper (<[query := text]> (cache self)) (S (posts self))).
Proof. intros H. unfold search_attempt. rewrite H. reflexivity. Qed.

Lemma search_attempt_fail net query retries attempt self e :
  fetch net query (posts self) = Raise e ->
  search_attempt net query retries attempt self =
    if attempt =? retries - 1
    then (Return (search_failed retries e), mk_serper (cache self) (S (posts self)))
    else (Continue, mk_serper (cache self) (S (posts self))).
Proof. intros H. unfold search_attempt. rewrite H. reflexivity. Qed.

Lemma range_len_unit (n : Z) : 0 < n -> range_len 0 n 1 = n.
Proof.
  intros Hn. unfold range_len.
  destruct (Z.ltb_spec 0 n) as [_|]; [|lia].
  rewrite Z.div_1_r. lia.
Qed.

Lemma range_len_empty (n : Z) : n <= 0 -> range_len 0 n 1 = 0.
Proof.
  intros Hn. unfold range_len.
  destruct (Z.ltb_spec 0 n) as [|_]; [lia|reflexivity].
Qed.

(** With at least one attempt left and the last attempt numbered
    [retries - 1], the loop always ends in a [return] of some text. *)
Lemma search_loop_returns net query retries (k : nat) : forall a self,
  a + Z.of_nat (S k) = retries ->
  exists text, fst (search_loop net query retries (range_from a 1 (S k)) self) = Some text.
Proof.
  induction k as [|k IH]; intros a self Ha; simpl range_from; cbn [search_loop].
  - destruct (fetch net query (posts self)) as [text|e] eqn:Hf.
    + rewrite (search_attempt_ok _ _ _ _ _ _ Hf). simpl. eauto.
    + rewrite (search_attempt_fail _ _ _ _ _ _ Hf).
      destruct (Z.eqb_spec a (retries - 1)) as [_|Hne]; [simpl; eauto | lia].
  - destruct (fetch net query (posts self)) as [text|e] eqn:Hf.
    + rewrite (search_attempt_ok _ _ _ _ _ _ Hf). simpl. eauto.
    + rewrite (search_attempt_fail _ _ _ _ _ _ Hf).
      destruct (Z.eqb_spec a (retries - 1)) as [Heq|Hne]; [simpl; eauto|].
      apply (IH (a + 1)). lia.
Qed.

(** For [retries >= 1] the client returns text on every path. *)
Lemma search_returns_text net query retries self :
  1 <= retries -> exists text, fst (search net query retries self) = Some text.
Proof.
  intros Hr. unfold search.
  destruct (cache self !! query) as [text|]; [simpl; eauto|].
  unfold py_range. rewrite range_len_unit by lia.
  destruct (Z.to_nat retries) as [|k] eqn:Hk; [lia|].
  apply search_loop_returns. lia.
Qed.

(** The loop writes to the cache under [query] only. *)
Lemma search_loop_keeps net query retries attempts : forall self k v,
  k <> query ->
  cache self !! k = Some v ->
  cache (snd (search_loop net query retries attempts self)) !! k = Some v.
Proof.
  induction attempts as [|a later IH]; intros self k v Hk Hv; [exact Hv|].
  cbn [search_loop].
  destruct (fetch net query (posts self)) as [text|e] eqn:Hf.
  - rewrite (search_attempt_ok _ _ _ _ _ _ Hf). simpl.
    rewrite lookup_insert_ne by auto. exact Hv.
  - rewrite (search_attempt_fail _ _ _ _ _ _ Hf).
    destruct (a =? retries - 1); [exact Hv|].
    apply IH; assumption.
Qed.

(** No call of [search] removes or changes an entry of the cache. *)
Lemma search_keeps_cache net query retries self (k v : list N) :
  cache self !! k = Some v ->
  cache (snd (search net query retries self)) !! k = Some v.
Proof.
  intros Hv. unfold search.
  destruct (cache self !! query) as [text|] eqn:Hq; [exact Hv|].
  apply search_loop_keeps; [|exact Hv].
  intros ->. congruence.
Qed.

(** C4. With the default limit of two attempts, when both attempts fail
    the call returns the text "Search failed after 2 attempts: " followed
    by the description of the last exception, and nothing is raised: with
    this limit every call of [search] returns text. *)
Theorem C4_search_failure_is_text (net : endpoint) (query : str) (self : serper)
    (e1 e2 : exn) :
  cache self !! query = None ->
  fetch net query (posts self) = Raise e1 ->
  fetch net query (S (posts self)) = Raise e2 ->
  search net query default_retries self =
    (Some (lit "Search failed after 2 attempts: " ++ exn_descr e2),
     mk_serper (cache self) (S (S (posts self)))) /\
  (forall net' query' self',
     exists text, fst (search net' query' default_retries self') = Some text).
Proof.
  intros Hmiss H1 H2. split.
  - unfold search. rewrite Hmiss.
    change (py_range 0 default_retries 1) with [0; 1].
    cbn [search_loop].
    rewrite (search_attempt_fail _ _ _ _ _ _ H1). cbn [Z.eqb default_retries Z.sub Z.add Z.opp Z.pos_sub].
    simpl.
    rewrite (search_attempt_fail net query default_retries 1
               (mk_serper (cache self) (S (posts self))) e2 H2).
    reflexivity.
  - intros net' query' self'. apply search_returns_text. unfold default_retries. lia.
Qed.

Lemma C4_search_failure_is_text_witness :
  search dead_endpoint (lit "weather") default_retries new_tool =
    (Some (lit "Search failed after 2 attempts: Read timed out."),
     mk_serper ∅ 2).
Proof.
  apply (C4_search_failure_is_text dead_endpoint (lit "weather") new_tool
           request_timeout request_timeout); reflexivity.
Defined.

(** C9. When the query is not cached and [retries] is zero or negative,
    the loop body never runs (no request is made, nothing is cached) and
    the call returns [None]; with [retries >= 1] the call returns text. *)
Theorem C9_search_without_attempts (net : endpoint) (query : str) (retries : Z)
    (self : serper) :
  cache self !! query = None ->
  (retries <= 0 -> search net query retries self = (None, self)) /\
  (1 <= retries -> exists text, fst (search net query retries self) = Some text).
Proof.
  intros Hmiss. split.
  - intros Hr. unfold search. rewrite Hmiss.
    unfold py_range. rewrite range_len_empty by exact Hr. reflexivity.
  - apply search_returns_text.
Qed.

Lemma C9_search_without_attempts_witness :
  search good_endpoint (lit "weather") 0 new_tool = (None, new_tool) /\
  search good_endpoint (lit "weather") (-3) new_tool = (None, new_tool) /\
  exists text, fst (search good_endpoint (lit "weather") 1 new_tool) = Some text.
Proof.
  split; [|split].
  - apply (C9_search_without_attempts good_endpoint (lit "weather") 0 new_tool);
      [reflexivity | lia].
  - apply (C9_search_without_attempts good_endpoint (lit "weather") (-3) new_tool);
      [reflexivity | lia].
  - apply (C9_search_without_attempts good_endpoint (lit "weather") 1 new_tool);
      [reflexivity | lia].
Defined.

(** C5, as stated, fails when the first call succeeds only at its second
    attempt: the call succeeds, its result is cached and the second call
    is served from the cache, yet the pair has issued two requests. *)
Lemma C5_counterexample_retry :
  let first := search flaky_endpoint weather_query default_retries new_tool in
  let second := search flaky_endpoint weather_query default_retries (snd first) in
  fst first = Some one_hit_text /\
  cache (snd first) !! weather_query = Some one_hit_text /\
  fst second = Some one_hit_text /\
  posts (snd second) = 2%nat /\
  posts (snd second) <> 1%nat.
Proof. vm_compute. repeat split; discriminate. Qed.

(** C5 (amended). If the query is not cached and the first attempt of the
    first call succeeds, then two calls with the same query issue exactly
    one request: the first call returns the fetched text and stores it
    under the exact query string, the second call returns the stored text
    and leaves the tool, and so the request count, as it is; and no later
    call of [search], with any query, removes or changes the entry. *)
Theorem C5_second_call_from_cache (net : endpoint) (query : str) (self : serper)
    (text : str) :
  cache self !! query = None ->
  fetch net query (posts self) = Ok text ->
  exists self1,
    search net query default_retries self = (Some text, self1) /\
    cache self1 = <[query := text]> (cache self) /\
    posts self1 = S (posts self) /\
    search net query default_retries self1 = (Some text, self1) /\
    (forall net' query' retries',
       cache (snd (search net' query' retries' self1)) !! query = Some text).
Proof.
  intros Hmiss Hf.
  exists (mk_serper (<[query := text]> (cache self)) (S (posts self))).
  assert (search net query default_retries self =
          (Some text, mk_serper (<[query := text]> (cache self)) (S (posts self))))
    as H1.
  { unfold search. rewrite Hmiss.
    change (py_range 0 default_retries 1) with [0; 1].
    cbn [search_loop]. rewrite (search_attempt_ok _ _ _ _ _ _ Hf). reflexivity. }
  split; [exact H1|]. split; [reflexivity|]. split; [reflexivity|]. split.
  - unfold search. simpl. rewrite lookup_insert_eq. reflexivity.
  - intros net' query' retries'. apply search_keeps_cache.
    simpl. apply lookup_insert_eq.
Qed.

Lemma C5_second_call_from_cache_witness :
  exists self1,
    search good_endpoint weather_query default_retries new_tool =
      (Some one_hit_text, self1) /\
    cache self1 = <[weather_query := one_hit_text]> (cache new_tool) /\
    posts self1 = S (posts new_tool) /\
    search good_endpoint weather_query default_retries self1 =
      (Some one_hit_text, self1) /\
    (forall net' query' retries',
       cache (snd (search net' query' retries' self1)) !! weather_query =
         Some one_hit_text).
Proof.
  apply (C5_second_call_from_cache good_endpoint weather_query new_tool one_hit_text);
    reflexivity.
Defined.

(** ** Chunked generation *)

Lemma plan_eq net model inp tool :
  plan net model inp tool =
    (chunk_loop model inp (fst (initial_search net inp tool))
       (enumerate (py_range 1 (num_days inp + 1) chunk_size)) [],
     snd (initial_search net inp tool)).
Proof. unfold plan. destruct (initial_search net inp tool); reflexivity. Qed.

Lemma run_chunk_raises (stream : run_stream) (e : exn) :
  raised stream = Some e -> run_chunk stream = Raise e.
Proof. intros H. unfold run_chunk. rewrite H. reflexivity. Qed.

(** The loop raises as soon as the run of one chunk raises. *)
Lemma chunk_loop_raises model inp sr (chunks : list (Z * Z)) : forall acc i start_day e0,
  In (i, start_day) chunks ->
  raised (model (query_chunk inp sr i start_day)) = Some e0 ->
  exists e, chunk_loop model inp sr chunks acc = Raise e.
Proof.
  induction chunks as [|[j s] later IH]; intros acc i start_day e0 Hin Hr; [destruct Hin|].
  cbn [chunk_loop].
  destruct (run_chunk (model (query_chunk inp sr j s))) as [r|e] eqn:Hrun.
  - rewrite bind_Ok. destruct Hin as [Heq|Hin].
    + injection Heq as -> ->. rewrite (run_chunk_raises _ _ Hr) in Hrun. discriminate.
    + eapply IH; eassumption.
  - rewrite bind_Raise. eauto.
Qed.

(** When the loop ends normally, every chunk produced a response and the
    accumulated text is each response, in chunk order, followed by a blank
    line. *)
Lemma chunk_loop_ok model inp sr (chunks : list (Z * Z)) : forall acc full,
  chunk_loop model inp sr chunks acc = Ok full ->
  exists responses,
    Forall2 (fun c r => run_chunk (model (query_chunk inp sr (fst c) (snd c))) = Ok r)
            chunks responses /\
    full = acc ++ concat (List.map (fun r => r ++ nl ++ nl) responses).
Proof.
  induction chunks as [|[j s] later IH]; intros acc full H; cbn [chunk_loop] in H.
  - injection H as <-. exists []. split; [constructor|]. simpl. now rewrite app_nil_r.
  - apply bind_Ok_inv in H as (r & Hr & Hrest).
    destruct (IH _ _ Hrest) as (rs & Hall & ->).
    exists (r :: rs). split; [constructor; assumption|].
    simpl. now rewrite <- !app_assoc.
Qed.

Lemma enumerate_from_ge {A} (xs : list A) : forall i j x,
  In (j, x) (enumerate_from i xs) -> i <= j.
Proof.
  induction xs as [|y ys IH]; intros i j x Hin; [destruct Hin|].
  destruct Hin as [Heq|Hin].
  - injection Heq as -> _. lia.
  - apply IH in Hin. lia.
Qed.

(** For at least one day the loop starts with index 0 at day 1. *)
Lemma chunks_first (n : Z) :
  1 <= n ->
  exists k, enumerate (py_range 1 (n + 1) chunk_size) =
            (0, 1) :: enumerate_from 1 (range_from (1 + chunk_size) chunk_size k).
Proof.
  intros Hn. unfold py_range.
  destruct (range_len_pos 1 n Hn) as [k ->]. exists k. reflexivity.
Qed.

(** C3. If the run of the agent raises for any chunk, the click leaves the
    session as it was and writes one error message and nothing else
    besides the status line: the text accumulated for earlier chunks is
    neither stored nor shown, and what the page shows afterwards is what
    it showed before. *)
Theorem C3_failed_generation_is_atomic (net : endpoint) (model : agent)
    (inp : inputs) (tool : serper) (ss : session) (i start_day : Z) (e0 : exn) :
  truthy (destination inp) = true ->
  In (i, start_day) (enumerate (py_range 1 (num_days inp + 1) chunk_size)) ->
  raised (model (query_chunk inp (fst (initial_search net inp tool)) i start_day))
    = Some e0 ->
  exists e,
    fst (plan net model inp tool) = Raise e /\
    generate_plan net model inp tool ss =
      (ss, snd (initial_search net inp tool),
       [Status (lit "Planning " ++ destination inp ++ lit "...");
        Error (lit "Error during planning: " ++ exn_descr e)]).
Proof.
  intros Hdest Hin Hraise.
  destruct (chunk_loop_raises model inp _ _ [] _ _ _ Hin Hraise) as [e He].
  exists e. unfold generate_plan. rewrite Hdest, plan_eq, He. simpl.
  split; reflexivity.
Qed.

Lemma C3_failed_generation_is_atomic_witness :
  exists e,
    fst (plan good_endpoint failing_agent (trip 4) new_tool) = Raise e /\
    generate_plan good_endpoint failing_agent (trip 4) new_tool old_session =
      (old_session, snd (initial_search good_endpoint (trip 4) new_tool),
       [Status (lit "Planning " ++ destination (trip 4) ++ lit "...");
        Error (lit "Error during planning: " ++ exn_descr e)]).
Proof.
  apply (C3_failed_generation_is_atomic good_endpoint failing_agent (trip 4)
           new_tool old_session 1 4 agent_down).
  - reflexivity.
  - right. left. reflexivity.
  - vm_compute. reflexivity.
Defined.

(** C6. The request of the first chunk, and of no other, asks for the
    essentials and the weather and ends with the text returned by the
    search client (the empty string when no search was made); the request
    of every later chunk asks for the day-by-day itinerary only and is the
    same whatever the search returned. *)
Theorem C6_requests_per_chunk (net : endpoint) (inp : inputs) (tool : serper) :
  1 <= num_days inp ->
  let search_results := fst (initial_search net inp tool) in
  (search_mode inp ∈ search_modes ->
     search_results = fst (search net (essential_query inp) default_retries tool)) /\
  (search_mode inp ∉ search_modes -> format_value search_results = []) /\
  exists later,
    enumerate (py_range 1 (num_days inp + 1) chunk_size) = (0, 1) :: later /\
    query_chunk inp search_results 0 1 =
      plan_request inp 1 (end_day (num_days inp) 1) ++
      lit " Include Essential Info and Weather. Use these search results:" ++ nl ++
      format_value search_results /\
    forall i start_day, In (i, start_day) later ->
      i <> 0 /\
      forall any_results,
        query_chunk inp any_results i start_day =
          plan_request inp start_day (end_day (num_days inp) start_day) ++
          lit " Only include Day-by-Day Itinerary, skip Essential Info and Weather.".
Proof.
  intros Hn sr. subst sr. unfold initial_search.
  split; [|split].
  - intros Hin. rewrite bool_decide_eq_true_2 by exact Hin. reflexivity.
  - intros Hout. rewrite bool_decide_eq_false_2 by exact Hout. reflexivity.
  - destruct (chunks_first (num_days inp) Hn) as [k Hk].
    eexists. split; [exact Hk|]. split; [reflexivity|].
    intros i start_day Hin. apply enumerate_from_ge in Hin.
    split; [lia|]. intros any_results. unfold query_chunk.
    destruct (Z.eqb_spec i 0); [lia|reflexivity].
Qed.

Lemma C6_requests_per_chunk_witness :
  query_chunk (trip 4) (Some one_hit_text) 0 1 =
    lit "Plan Day 1 to Day 3 of a 4-day Balanced trip to Rome starting 2026-03-10." ++
    lit " Include Essential Info and Weather. Use these search results:" ++ nl ++
    one_hit_text /\
  query_chunk (trip 4) (Some one_hit_text) 1 4 =
    lit "Plan Day 4 to Day 4 of a 4-day Balanced trip to Rome starting 2026-03-10." ++
    lit " Only include Day-by-Day Itinerary, skip Essential Info and Weather.".
Proof.
  assert (1 <= num_days (trip 4)) as Hn by (simpl; lia).
  destruct (C6_requests_per_chunk good_endpoint (trip 4) new_tool Hn)
    as (_ & _ & later & Hlater & _ & Hrest).
  split; [vm_compute; reflexivity|].
  destruct (Hrest 1 4) as [_ Hq].
  - vm_compute in Hlater. injection Hlater as Hl. subst later.
    left. reflexivity.
  - rewrite Hq. vm_compute. reflexivity.
Defined.

(** C7, as stated, fails already for a one-day trip: the only response is
    [A], the text joined with blank lines is [A], and the itinerary is [A]
    followed by a blank line. *)
Lemma C7_counterexample_trailing_separator :
  run_chunk (terse_agent
    (query_chunk (trip 1) (fst (initial_search good_endpoint (trip 1) new_tool)) 0 1))
    = Ok (lit "A") /\
  join (nl ++ nl) [lit "A"] = lit "A" /\
  fst (plan good_endpoint terse_agent (trip 1) new_tool) = Ok (lit "A" ++ nl ++ nl) /\
  fst (plan good_endpoint terse_agent (trip 1) new_tool)
    <> Ok (join (nl ++ nl) [lit "A"]).
Proof. vm_compute. repeat split; discriminate. Qed.

(** ** The matcher *)

Lemma head_flat_map {A B} (f : A -> list B) (l : list A) (b : B) :
  head (flat_map f l) = Some b ->
  exists l1 a l2,
    l = l1 ++ a :: l2 /\ (forall a', In a' l1 -> f a' = []) /\ head (f a) = Some b.
Proof.
  induction l as [|a l IH]; simpl; [discriminate|].
  destruct (f a) as [|b0 bs] eqn:Hfa; simpl.
  - intros H. destruct (IH H) as (l1 & a0 & l2 & -> & Hl1 & Hb).
    exists (a :: l1), a0, l2. split; [reflexivity|]. split; [|exact Hb].
    intros a' [<-|Hin]; [exact Hfa | now apply Hl1].
  - intros H. exists [], a, l. split; [reflexivity|]. split; [intros a' []|].
    rewrite Hfa. exact H.
Qed.

Lemma flat_map_nonempty {A B} (f : A -> list B) (l : list A) (a : A) :
  In a l -> f a <> [] -> flat_map f l <> [].
Proof.
  intros Hin Hfa Hnil. apply Hfa.
  destruct (f a) as [|b bs] eqn:E; [reflexivity|].
  assert (In b (flat_map f l)) as Hb
    by (apply in_flat_map; exists a; split; [exact Hin | rewrite E; now left]).
  rewrite Hnil in Hb. destruct Hb.
Qed.

Lemma consumed_app (w t : list N) : consumed (w ++ t) t = w.
Proof.
  unfold consumed. rewrite length_app.
  replace (length w + length t - length t)%nat with (length w) by lia.
  rewrite firstn_app, firstn_all, Nat.sub_diag. simpl. apply app_nil_r.
Qed.

Lemma star_greedy_self p (s : list N) : In s (star_greedy p s).
Proof.
  destruct s as [|c s]; simpl; [now left|].
  destruct (p c); [apply in_or_app; right|]; now left.
Qed.

Lemma star_greedy_elem p (s : list N) : forall t,
  In t (star_greedy p s) -> exists w, s = w ++ t /\ forallb p w = true.
Proof.
  induction s as [|c s IH]; intros t Hin; simpl in Hin.
  - destruct Hin as [<-|[]]. now exists [].
  - destruct (p c) eqn:Hc.
    + apply in_app_or in Hin as [Hin|[<-|[]]].
      * destruct (IH _ Hin) as (w & -> & Hw).
        exists (c :: w). split; [reflexivity|]. simpl. now rewrite Hc.
      * now exists [].
    + destruct Hin as [<-|[]]. now exists [].
Qed.

Lemma plus_greedy_elem p (s : list N) (t : list N) :
  In t (plus_greedy p s) ->
  exists w, s = w ++ t /\ forallb p w = true /\ w <> [].
Proof.
  destruct s as [|c s]; simpl; [intros []|].
  destruct (p c) eqn:Hc; [|intros []].
  intros Hin. destruct (star_greedy_elem _ _ _ Hin) as (w & -> & Hw).
  exists (c :: w). split; [reflexivity|]. split; [|discriminate].
  simpl. now rewrite Hc.
Qed.

Lemma any_char_true (c : N) : any_char c = true.
Proof. unfold any_char, not_space. apply orb_negb_r. Qed.

Lemma star_lazy_any_end (s : list N) : In [] (star_lazy any_char s).
Proof.
  induction s as [|c s IH]; simpl; [now left|].
  rewrite any_char_true. now right.
Qed.

(** The lazy repetition offers the suffixes of the text from the longest
    to the shortest: whatever precedes [t] in the list is a longer one. *)
Lemma star_lazy_any_split (s : list N) : forall l1 t l2,
  star_lazy any_char s = l1 ++ t :: l2 ->
  exists ct, s = ct ++ t /\
    forall c1 c2, ct = c1 ++ c2 -> c2 <> [] -> In (c2 ++ t) l1.
Proof.
  induction s as [|c s IH]; intros l1 t l2 H.
  - simpl in H. destruct l1 as [|x l1].
    + injection H as <- _. exists []. split; [reflexivity|].
      intros c1 c2 Hc Hne. destruct c1, c2; try discriminate. congruence.
    + injection H as _ H. destruct l1; discriminate.
  - cbn [star_lazy] in H. rewrite any_char_true in H.
    destruct l1 as [|x l1].
    + injection H as <- _. exists []. split; [reflexivity|].
      intros c1 c2 Hc Hne. destruct c1, c2; try discriminate. congruence.
    + injection H as <- H.
      destruct (IH _ _ _ H) as (ct & -> & Hsplit).
      exists (c :: ct). split; [reflexivity|].
      intros c1 c2 Hc Hne. destruct c1 as [|c' c1].
      * simpl in Hc. subst c2. now left.
      * injection Hc as <- Hc. right. now apply (Hsplit c1 c2).
Qed.

Lemma in_run_Class p (st st1 : mstate) :
  In st1 (run (Class p) st) <->
  exists c s', rest st = c :: s' /\ p c = true /\ st1 = move st s'.
Proof.
  cbn [run]. destruct (rest st) as [|c s'] eqn:Hr.
  - split; [intros [] | intros (c & s' & Hc & _); discriminate].
  - destruct (p c) eqn:Hc.
    + split.
      * intros [<-|[]]. exists c, s'. auto.
      * intros (c' & s'' & Heq & _ & ->). injection Heq as -> ->. now left.
    + split; [intros []|].
      intros (c' & s'' & Heq & Hp & _). injection Heq as -> _. congruence.
Qed.

Lemma in_run_Cat r1 r2 (st st2 : mstate) :
  In st2 (run (Cat r1 r2) st) <->
  exists st1, In st1 (run r1 st) /\ In st2 (run r2 st1).
Proof. cbn [run]. apply in_flat_map. Qed.

Lemma in_run_Star p (st st1 : mstate) :
  In st1 (run (Star p) st) ->
  exists w, rest st = w ++ rest st1 /\ forallb p w = true /\ caps st1 = caps st.
Proof.
  cbn [run]. intros Hin. apply in_map_iff in Hin as (t & <- & Hin).
  destruct (star_greedy_elem _ _ _ Hin) as (w & Hw & Hp).
  exists w. simpl. auto.
Qed.

Lemma in_run_Plus p (st st1 : mstate) :
  In st1 (run (Plus p) st) ->
  exists w, rest st = w ++ rest st1 /\ forallb p w = true /\ w <> [] /\
            caps st1 = caps st.
Proof.
  cbn [run]. intros Hin. apply in_map_iff in Hin as (t & <- & Hin).
  destruct (plus_greedy_elem _ _ _ Hin) as (w & Hw & Hp & Hne).
  exists w. simpl. auto.
Qed.

Section ExtractorProperties.
Context {udb : unicode_db}.

(** ** The day pattern *)

Lemma run_Cat_eq r1 r2 st : run (Cat r1 r2) st = flat_map (run r2) (run r1 st).
Proof. reflexivity. Qed.

Lemma run_Opt_eq r st : run (Opt r) st = run r st ++ [st].
Proof. reflexivity. Qed.

Lemma run_Lookahead_eq r st :
  run (Lookahead r) st = match run r st with [] => [] | _ :: _ => [st] end.
Proof. reflexivity. Qed.

Lemma run_Alt_eq r1 r2 st : run (Alt r1 r2) st = run r1 st ++ run r2 st.
Proof. reflexivity. Qed.

Lemma forallb_weaken {A} (p q : A -> bool) (l : list A) :
  (forall a, p a = true -> q a = true) -> forallb p l = true -> forallb q l = true.
Proof.
  intros Hpq. induction l as [|a l IH]; simpl; [reflexivity|].
  intros H. apply andb_true_iff in H as [Ha Hl].
  rewrite (Hpq a Ha), (IH Hl). reflexivity.
Qed.

Lemma run_heading_skip st : In st (run heading st).
Proof. unfold heading. rewrite run_Opt_eq. apply in_or_app. right. now left. Qed.

Lemma run_heading_elem st st1 :
  In st1 (run heading st) ->
  exists h, rest st = h ++ rest st1 /\ forallb heading_char h = true /\
            caps st1 = caps st.
Proof.
  unfold heading. rewrite run_Opt_eq. intros Hin.
  apply in_app_or in Hin as [Hin|[<-|[]]]; [|now exists []].
  apply in_run_Cat in Hin as (sa & Ha & Hin).
  apply in_run_Class in Ha as (c1 & s1 & Hr1 & Hc1 & ->).
  apply in_run_Cat in Hin as (sb & Hb & Hin).
  apply in_run_Class in Hb as (c2 & s2 & Hr2 & Hc2 & ->).
  apply in_run_Star in Hin as (w & Hw & Hp & Hcaps).
  simpl in *. subst s1 s2. exists (c1 :: c2 :: w).
  split; [exact Hr1|]. split; [|exact Hcaps].
  simpl. unfold heading_char at 1 2. rewrite Hc1, Hc2. simpl.
  apply (forallb_weaken is_space); [|exact Hp].
  intros a Ha. unfold heading_char. rewrite Ha. apply orb_true_r.
Qed.

Lemma digit_after_spaces_intro (w dg r : list N) :
  forallb is_space w = true -> forallb is_digit dg = true -> dg <> [] ->
  digit_after_spaces (w ++ dg ++ r) = true.
Proof.
  intros Hw Hd Hne. induction w as [|c w IH]; simpl.
  - destruct dg as [|c dg]; [congruence|]. simpl in *.
    apply andb_true_iff in Hd as [-> _]. reflexivity.
  - simpl in Hw. apply andb_true_iff in Hw as [-> Hw].
    rewrite (IH Hw). apply orb_true_r.
Qed.

Lemma digit_after_spaces_run (s : list N) :
  digit_after_spaces s = true ->
  exists t u, In t (star_greedy is_space s) /\ In u (plus_greedy is_digit t).
Proof.
  induction s as [|c s IH]; simpl; [discriminate|].
  intros H. apply orb_true_iff in H as [Hd|Hs].
  - exists (c :: s), s. split.
    + apply (star_greedy_self is_space (c :: s)).
    + simpl. rewrite Hd. apply star_greedy_self.
  - apply andb_true_iff in Hs as [Hc Hs].
    destruct (IH Hs) as (t & u & Ht & Hu). exists t, u. split; [|exact Hu].
    rewrite Hc. apply in_or_app. now left.
Qed.

(** What a match of the day marker consumes. *)
Lemma run_marker_elem (capture : bool) st st1 :
  In st1 (run (day_marker capture) st) ->
  exists d a y w dg,
    rest st = d :: a :: y :: w ++ dg ++ rest st1 /\
    chr_ic "d" d = true /\ chr_ic "a" a = true /\ chr_ic "y" y = true /\
    forallb is_space w = true /\ forallb is_digit dg = true /\ dg <> [] /\
    caps st1 = (if capture then [(1%nat, dg)] else []) ++ caps st.
Proof.
  unfold day_marker. intros Hin.
  apply in_run_Cat in Hin as (sa & Ha & Hin).
  apply in_run_Class in Ha as (d & s1 & Hr1 & Hd & ->).
  apply in_run_Cat in Hin as (sb & Hb & Hin).
  apply in_run_Class in Hb as (a & s2 & Hr2 & Ha & ->).
  apply in_run_Cat in Hin as (sc & Hc & Hin).
  apply in_run_Class in Hc as (y & s3 & Hr3 & Hy & ->).
  apply in_run_Cat in Hin as (sd & Hsd & Hin).
  apply in_run_Star in Hsd as (w & Hw & Hpw & Hcw).
  simpl in Hr2, Hr3, Hw, Hcw. subst s1 s2 s3.
  exists d, a, y, w.
  destruct capture.
  - cbn [run] in Hin. apply in_map_iff in Hin as (se & <- & Hin).
    apply in_run_Plus in Hin as (dg & Hdg & Hpd & Hne & Hcd).
    exists dg. simpl. rewrite Hr1, Hdg, consumed_app, Hcd, Hcw.
    repeat split; auto.
  - apply in_run_Plus in Hin as (dg & Hdg & Hpd & Hne & Hcd).
    exists dg. simpl. rewrite Hr1, Hdg, Hcd, Hcw.
    repeat split; auto.
Qed.

Lemma run_marker_at (capture : bool) st st1 :
  In st1 (run (day_marker capture) st) -> marker_at (rest st) = true.
Proof.
  intros Hin.
  destruct (run_marker_elem _ _ _ Hin)
    as (d & a & y & w & dg & -> & Hd & Ha & Hy & Hw & Hdg & Hne & _).
  simpl. rewrite Hd, Ha, Hy. simpl. now apply digit_after_spaces_intro.
Qed.

Lemma run_marker_exists (capture : bool) st :
  marker_at (rest st) = true -> exists st1, In st1 (run (day_marker capture) st).
Proof.
  intros H. destruct st as [s cs]. simpl in H.
  destruct s as [|d [|a [|y s]]]; simpl in H; try discriminate.
  apply andb_true_iff in H as [H Hs].
  apply andb_true_iff in H as [H Hy]. apply andb_true_iff in H as [Hd Ha].
  destruct (digit_after_spaces_run _ Hs) as (t & u & Ht & Hu).
  assert (In (mk_mstate t cs) (run (Star is_space) (mk_mstate s cs))) as Hstar
    by (cbn [run]; apply in_map_iff; exists t; auto).
  assert (In (mk_mstate u cs) (run (Plus is_digit) (mk_mstate t cs))) as Hplus
    by (cbn [run]; apply in_map_iff; exists u; auto).
  assert (forall R st2, In st2 (run R (mk_mstate t cs)) ->
            In st2 (run (Cat (Class (chr_ic "d")) (Cat (Class (chr_ic "a"))
                        (Cat (Class (chr_ic "y")) (Cat (Star is_space) R))))
                        (mk_mstate (d :: a :: y :: s) cs))) as Hpre.
  { intros R st2 HR.
    apply in_run_Cat. exists (mk_mstate (a :: y :: s) cs). split.
    { apply in_run_Class. exists d, (a :: y :: s). auto. }
    apply in_run_Cat. exists (mk_mstate (y :: s) cs). split.
    { apply in_run_Class. exists a, (y :: s). auto. }
    apply in_run_Cat. exists (mk_mstate s cs). split.
    { apply in_run_Class. exists y, s. auto. }
    apply in_run_Cat. exists (mk_mstate t cs). split; [exact Hstar | exact HR]. }
  unfold day_marker. destruct capture.
  - eexists. apply Hpre. cbn [run]. apply in_map_iff. eexists. split; [reflexivity|].
    cbn [run] in Hplus. exact Hplus.
  - eexists. apply Hpre. exact Hplus.
Qed.

(** The lookahead holds wherever a day marker starts, *)
Lemma run_look_marker st :
  marker_at (rest st) = true -> run next_day_or_end st = [st].
Proof.
  intros H. unfold next_day_or_end. rewrite run_Lookahead_eq, run_Alt_eq.
  destruct (run_marker_exists false st H) as [st1 H1].
  assert (In st1 (run (Cat heading (day_marker false)) st)) as Hin
    by (apply in_run_Cat; exists st; split; [apply run_heading_skip | exact H1]).
  destruct (run (Cat heading (day_marker false)) st); [destruct Hin | reflexivity].
Qed.

(** and at the end of the text, and it consumes nothing. *)
Lemma run_look_end st : rest st = [] -> run next_day_or_end st = [st].
Proof.
  intros H. unfold next_day_or_end. rewrite run_Lookahead_eq, run_Alt_eq.
  cbn [run]. rewrite H. simpl.
  destruct (flat_map _ _); reflexivity.
Qed.

Lemma run_look_cases st :
  run next_day_or_end st = [] \/ run next_day_or_end st = [st].
Proof.
  unfold next_day_or_end. rewrite run_Lookahead_eq.
  destruct (run _ st); auto.
Qed.

Lemma run_group2_eq st :
  run (Group 2 (LazyStar any_char)) st =
    List.map (capture_text st) (star_lazy any_char (rest st)).
Proof. cbn [run]. rewrite map_map. reflexivity. Qed.

Lemma run_content_total st :
  run (Cat (Group 2 (LazyStar any_char)) next_day_or_end) st <> [].
Proof.
  rewrite run_Cat_eq. apply (flat_map_nonempty _ _ (capture_text st [])).
  - rewrite run_group2_eq. apply in_map, star_lazy_any_end.
  - rewrite run_look_end by reflexivity. discriminate.
Qed.

(** After a day marker the rest of the pattern always matches. *)
Lemma run_day_text_total st : run day_text st <> [].
Proof.
  unfold day_text. rewrite run_Cat_eq. apply (flat_map_nonempty _ _ st).
  - cbn [run]. apply in_map_iff. exists (rest st).
    split; [destruct st; reflexivity | apply star_greedy_self].
  - apply run_content_total.
Qed.

(** The pattern matches wherever a day marker starts. *)
Lemma match_here_marker (s : list N) :
  marker_at s = true -> exists st', match_here day_pattern s = Some st'.
Proof.
  intros H. unfold match_here.
  destruct (run day_pattern (mk_mstate s [])) as [|st' l] eqn:E; [exfalso | simpl; eauto].
  revert E. unfold day_pattern. rewrite run_Cat_eq.
  apply (flat_map_nonempty _ _ (mk_mstate s [])); [apply run_heading_skip|].
  rewrite run_Cat_eq.
  destruct (run_marker_exists true (mk_mstate s []) H) as [st1 H1].
  apply (flat_map_nonempty _ _ st1 H1), run_day_text_total.
Qed.

(** The day text reported: separators, then the shortest text after which
    the lookahead holds. *)
Lemma day_text_head st st' :
  head (run day_text st) = Some st' ->
  exists sp ct,
    rest st = sp ++ ct ++ rest st' /\
    forallb is_sep sp = true /\
    (forall c1 c2, ct = c1 ++ c2 -> c2 <> [] -> marker_at (c2 ++ rest st') = false) /\
    caps st' = (2%nat, ct) :: caps st.
Proof.
  unfold day_text. rewrite run_Cat_eq. intros H.
  apply head_flat_map in H as (l1 & st2 & l2 & Hl & _ & H).
  assert (In st2 (run (Star is_sep) st)) as Hst2 by (rewrite Hl; apply in_elt).
  apply in_run_Star in Hst2 as (sp & Hsp & Hpsp & Hcaps2).
  rewrite run_Cat_eq in H.
  apply head_flat_map in H as (k1 & x & k2 & Hk & Hk1 & Hx).
  rewrite run_group2_eq in Hk.
  apply map_eq_app in Hk as (t1 & t2' & Hts & Ht1 & Ht2).
  apply map_eq_cons in Ht2 as (t & t2 & -> & Hxt & _).
  destruct (star_lazy_any_split _ _ _ _ Hts) as (ct & Hct & Hsplit).
  destruct (run_look_cases x) as [E|E]; rewrite E in Hx; [discriminate|].
  injection Hx as <-. subst x. simpl.
  exists sp, ct. rewrite Hsp, Hct, consumed_app, Hcaps2.
  split; [reflexivity|]. split; [exact Hpsp|]. split; [|reflexivity].
  intros c1 c2 Hc Hne.
  destruct (marker_at (c2 ++ t)) eqn:Hm; [exfalso | reflexivity].
  assert (run next_day_or_end (capture_text st2 (c2 ++ t)) = []) as Hnone.
  { apply Hk1. rewrite <- Ht1. apply in_map. now apply (Hsplit c1 c2). }
  rewrite run_look_marker in Hnone by exact Hm. discriminate.
Qed.

(** The shape of a match of the whole pattern. *)
Lemma match_here_shape (s : list N) st' :
  match_here day_pattern s = Some st' ->
  exists h d a y w dg sp ct,
    s = h ++ d :: a :: y :: w ++ dg ++ sp ++ ct ++ rest st' /\
    forallb heading_char h = true /\
    chr_ic "d" d = true /\ chr_ic "a" a = true /\ chr_ic "y" y = true /\
    forallb is_space w = true /\ forallb is_digit dg = true /\ dg <> [] /\
    forallb is_sep sp = true /\
    (forall c1 c2, ct = c1 ++ c2 -> c2 <> [] -> marker_at (c2 ++ rest st') = false) /\
    caps st' = [(2%nat, ct); (1%nat, dg)].
Proof.
  unfold match_here, day_pattern. rewrite run_Cat_eq. intros H.
  apply head_flat_map in H as (l1 & hst & l2 & Hl & _ & H).
  assert (In hst (run heading (mk_mstate s []))) as Hh by (rewrite Hl; apply in_elt).
  apply run_heading_elem in Hh as (h & Hs & Hph & Hch). simpl in Hs, Hch.
  rewrite run_Cat_eq in H.
  apply head_flat_map in H as (k1 & st1 & k2 & Hk & _ & H).
  assert (In st1 (run (day_marker true) hst)) as Hm by (rewrite Hk; apply in_elt).
  apply run_marker_elem in Hm
    as (d & a & y & w & dg & Hr & Hd & Ha & Hy & Hw & Hdg & Hne & Hc1).
  apply day_text_head in H as (sp & ct & Hr1 & Hsp & Hlazy & Hc').
  exists h, d, a, y, w, dg, sp, ct.
  rewrite Hs, Hr, Hr1, Hc', Hc1, Hch. simpl.
  repeat split; auto.
Qed.

Lemma marker_first_char (s : list N) :
  marker_at s = true -> exists x s', s = x :: s' /\ chr_ic "d" x = true.
Proof.
  destruct s as [|x [|a [|y s]]]; simpl; try discriminate.
  intros H. apply andb_true_iff in H as [H _].
  apply andb_true_iff in H as [H _]. apply andb_true_iff in H as [H _].
  eauto.
Qed.

(** The letter that opens a marker is no heading character, white space,
    digit or separator, nor the second or third letter of a marker. *)
Lemma marker_first_char_only (x : N) :
  chr_ic "d" x = true ->
  heading_char x = false /\ is_space x = false /\ is_digit x = false /\
  is_sep x = false /\ chr_ic "a" x = false /\ chr_ic "y" x = false.
Proof.
  unfold chr_ic. intros H. apply orb_true_iff in H as [H|H];
    apply N.eqb_eq in H; subst x; repeat split; reflexivity.
Qed.

Lemma app_split_cons {A} (l1 l2 pre suf : list A) (x : A) :
  l1 ++ l2 = pre ++ x :: suf ->
  (exists l, l1 = pre ++ x :: l /\ suf = l ++ l2) \/
  (exists pre', pre = l1 ++ pre' /\ l2 = pre' ++ x :: suf).
Proof.
  intros H. apply app_eq_app in H as [l [[H1 H2]|[H1 H2]]].
  - destruct l as [|x' l].
    + right. exists []. simpl in H2. rewrite app_nil_r in H1. rewrite app_nil_r. auto.
    + injection H2 as <- H2. left. exists l. auto.
  - right. exists l. auto.
Qed.

Lemma forallb_mid {A} (p : A -> bool) (l1 l2 : list A) (x : A) :
  forallb p (l1 ++ x :: l2) = true -> p x = true.
Proof.
  rewrite forallb_app. simpl. intros H.
  apply andb_true_iff in H as [_ H]. now apply andb_true_iff in H as [H _].
Qed.

(** A match started at or before a day marker either has that marker as
    its own, with nothing but a heading before it, or ends before it. *)
Lemma match_before_marker (pre suf : list N) st' :
  match_here day_pattern (pre ++ suf) = Some st' ->
  marker_at suf = true ->
  (forallb heading_char pre = true /\
   (length pre < length (pre ++ suf) - length (rest st'))%nat /\
   names_day suf (group 1 (caps st'))) \/
  (0 < length (pre ++ suf) - length (rest st') <= length pre)%nat.
Proof.
  intros Hm Hmk.
  destruct (marker_first_char suf Hmk) as (x & suf' & -> & Hx).
  destruct (marker_first_char_only x Hx) as (Hnh & Hns & Hnd & Hnsep & Hna & Hny).
  destruct (match_here_shape _ _ Hm)
    as (h & d & a & y & w & dg & sp & ct & Hs & Hph & Hd & Ha & Hy & Hw & Hdg &
        Hne & Hsp & Hlazy & Hcaps).
  rewrite Hs. symmetry in Hs.
  apply app_split_cons in Hs as [(l & Hh & _)|(p1 & Hpre & Hrest)].
  { rewrite Hh in Hph. apply forallb_mid in Hph. congruence. }
  destruct p1 as [|p1a p1].
  { left. simpl in Hrest. injection Hrest as -> Hsuf.
    rewrite app_nil_r in Hpre. subst pre suf'. split; [exact Hph|]. split.
    - rewrite !length_app. simpl. rewrite !length_app. lia.
    - rewrite Hcaps. exists w, (sp ++ ct ++ rest st'). simpl. auto. }
  right. injection Hrest as <- Hrest.
  destruct p1 as [|p2 p1]; [injection Hrest as -> _; congruence|].
  injection Hrest as <- Hrest.
  destruct p1 as [|p3 p1]; [injection Hrest as -> _; congruence|].
  injection Hrest as <- Hrest.
  apply app_split_cons in Hrest as [(l & Hl & _)|(q1 & -> & Hrest)].
  { rewrite Hl in Hw. apply forallb_mid in Hw. congruence. }
  apply app_split_cons in Hrest as [(l & Hl & _)|(q2 & -> & Hrest)].
  { rewrite Hl in Hdg. apply forallb_mid in Hdg. congruence. }
  apply app_split_cons in Hrest as [(l & Hl & _)|(q3 & -> & Hrest)].
  { rewrite Hl in Hsp. apply forallb_mid in Hsp. congruence. }
  apply app_split_cons in Hrest as [(l & Hl & Hsuf)|(q4 & -> & Hrest)].
  { specialize (Hlazy q3 (x :: l) Hl).
    change ((x :: l) ++ rest st') with (x :: l ++ rest st') in Hlazy.
    rewrite <- Hsuf in Hlazy.
    rewrite Hlazy in Hmk by discriminate. discriminate. }
  subst pre. rewrite !length_app. simpl. rewrite !length_app. lia.
Qed.

Lemma scan_skip r pos k c (s : list N) :
  scan r pos (S k) (c :: s) = scan r (S pos) k s.
Proof. reflexivity. Qed.

Lemma scan_here r pos (s : list N) :
  scan r pos 0 s =
    match match_here r s with
    | Some st' =>
        mk_rmatch pos (pos + (length s - length (rest st'))) (caps st') ::
        match s with
        | [] => []
        | _ :: s' => scan r (S pos) (length s - length (rest st') - 1) s'
        end
    | None =>
        match s with
        | [] => []
        | _ :: s' => scan r (S pos) 0 s'
        end
    end.
Proof. destruct s; reflexivity. Qed.

(** Every day marker of the text is the marker of one of the matches the
    scan reports, provided the scan has not already passed it. *)
Lemma scan_finds_marker (pre : list N) : forall pos skip suf,
  marker_at suf = true ->
  (skip <= length pre)%nat ->
  exists m pre0 h,
    In m (scan day_pattern pos skip (pre ++ suf)) /\
    pre = pre0 ++ h /\
    m_start m = (pos + length pre0)%nat /\
    forallb heading_char h = true /\
    (pos + length pre < m_end m)%nat /\
    names_day suf (group 1 (m_caps m)).
Proof.
  induction pre as [|c pre IH]; intros pos skip suf Hmk Hskip.
  - simpl in Hskip. assert (skip = 0%nat) as -> by lia.
    destruct (match_here_marker suf Hmk) as [st' Hst'].
    destruct (match_before_marker [] suf st' Hst' Hmk) as [(Hh & Hlen & Hnd)|Hr];
      [|simpl in Hr; lia].
    exists (mk_rmatch pos (pos + (length suf - length (rest st'))) (caps st')), [], [].
    simpl app. rewrite scan_here, Hst'. simpl in *.
    repeat split; auto; lia.
  - destruct skip as [|k].
    + rewrite scan_here.
      destruct (match_here day_pattern ((c :: pre) ++ suf)) as [st'|] eqn:Hst'.
      * destruct (match_before_marker (c :: pre) suf st' Hst' Hmk)
          as [(Hh & Hlen & Hnd)|Hr].
        -- eexists _, [], (c :: pre). split; [left; reflexivity|].
           split; [reflexivity|]. split; [cbn [m_start length]; lia|].
           split; [exact Hh|]. split; [cbn [m_end]; lia | exact Hnd].
        -- simpl app at 3.
           destruct (IH (S pos) (length ((c :: pre) ++ suf) - length (rest st') - 1)%nat
                        suf Hmk)
             as (m & pre0 & h & Hin & -> & Hstart & Hh & Hend & Hnd);
             [simpl in Hr |- *; lia|].
           exists m, (c :: pre0), h. split; [right; exact Hin|].
           simpl length in *. repeat split; auto; lia.
      * simpl app at 2.
        destruct (IH (S pos) 0%nat suf Hmk)
          as (m & pre0 & h & Hin & -> & Hstart & Hh & Hend & Hnd); [lia|].
        exists m, (c :: pre0), h. split; [exact Hin|].
        simpl length in *. repeat split; auto; lia.
    + simpl app. rewrite scan_skip.
      destruct (IH (S pos) k suf Hmk)
        as (m & pre0 & h & Hin & -> & Hstart & Hh & Hend & Hnd);
        [simpl in Hskip; lia|].
      exists m, (c :: pre0), h. split; [exact Hin|].
      simpl length in *. repeat split; auto; lia.
Qed.

Lemma has_day_marker_app (h s : list N) :
  marker_at s = true -> has_day_marker (h ++ s) = true.
Proof.
  intros H. induction h as [|c h IH]; simpl.
  - destruct s; simpl in *; [discriminate|]. rewrite H. reflexivity.
  - rewrite IH. apply orb_true_r.
Qed.

Lemma match_here_has_marker (s : list N) st' :
  match_here day_pattern s = Some st' -> has_day_marker s = true.
Proof.
  intros Hm.
  destruct (match_here_shape _ _ Hm)
    as (h & d & a & y & w & dg & sp & ct & -> & _ & Hd & Ha & Hy & Hw & Hdg &
        Hne & _).
  apply has_day_marker_app. simpl. rewrite Hd, Ha, Hy. simpl.
  now apply digit_after_spaces_intro.
Qed.

(** A text without day marker has no match. *)
Lemma scan_no_marker (s : list N) : forall pos skip,
  has_day_marker s = false -> scan day_pattern pos skip s = [].
Proof.
  induction s as [|c s IH]; intros pos skip H.
  - destruct skip; [|reflexivity]. rewrite scan_here.
    destruct (match_here day_pattern []) as [st'|] eqn:Hst'; [|reflexivity].
    apply match_here_has_marker in Hst'. congruence.
  - destruct skip as [|k].
    + rewrite scan_here.
      destruct (match_here day_pattern (c :: s)) as [st'|] eqn:Hst'.
      * apply match_here_has_marker in Hst'. congruence.
      * apply IH. simpl in H. now apply orb_false_iff in H as [_ H].
    + rewrite scan_skip. apply IH. simpl in H. now apply orb_false_iff in H as [_ H].
Qed.

Lemma findall_days_no_marker (text : list N) :
  has_day_marker text = false -> findall_days text = [].
Proof.
  intros H. unfold findall_days, finditer. now rewrite scan_no_marker.
Qed.

(** ** Calendar events *)

Lemma py_int_ok (s : list N) (n : Z) : py_int s = Ok n -> n = digits_value s.
Proof. unfold py_int. destruct (Nat.ltb _ _); [discriminate | now intros [= <-]]. Qed.

Lemma timedelta_days_ok (n d : Z) : timedelta_days n = Ok d -> d = n.
Proof.
  unfold timedelta_days.
  destruct (_ || _); [discriminate|]. destruct (_ || _); [discriminate|].
  now intros [= <-].
Qed.

Lemma date_add_ok (d : date) (delta : Z) (o : date) :
  date_add d delta = Ok o -> o = d + delta /\ 1 <= o <= MAXORDINAL.
Proof.
  unfold date_add. destruct (_ && _) eqn:E; [|discriminate].
  intros [= <-]. apply andb_true_iff in E as [E1 E2].
  apply Z.leb_le in E1, E2. auto.
Qed.

(** The event made of one match. *)
Lemma day_event_ok (start_dt : date) (dest d_num content : list N) (ev : event) :
  day_event start_dt dest (d_num, content) = Ok ev ->
  summary ev = lit "Day " ++ d_num ++ lit " in " ++ dest /\
  description ev = strip content /\
  dtstart ev = start_dt + (digits_value d_num - 1) /\
  dtend ev = dtstart ev + 1.
Proof.
  unfold day_event. intros H.
  apply bind_Ok_inv in H as (n & Hn & H). apply py_int_ok in Hn.
  apply bind_Ok_inv in H as (delta & Hdelta & H). apply timedelta_days_ok in Hdelta.
  apply bind_Ok_inv in H as (s & Hs & H). apply date_add_ok in Hs as [Hs _].
  apply bind_Ok_inv in H as (n' & Hn' & H). apply py_int_ok in Hn'.
  apply bind_Ok_inv in H as (delta' & Hdelta' & H). apply timedelta_days_ok in Hdelta'.
  apply bind_Ok_inv in H as (e & He & H). apply date_add_ok in He as [He _].
  injection H as <-. simpl. subst. repeat split; lia.
Qed.

Lemma add_days_ok (start_dt : date) (dest : list N) (days : list (list N * list N)) :
  forall cal cal',
  add_days start_dt dest days cal = Ok cal' ->
  exists evs,
    cal' = mk_calendar (prodid cal) (version cal) (events cal ++ evs) /\
    Forall2 (fun day ev => day_event start_dt dest day = Ok ev) days evs.
Proof.
  induction days as [|day later IH]; intros cal cal' H; cbn [add_days] in H.
  - injection H as <-. exists []. rewrite app_nil_r. destruct cal. split; [reflexivity|constructor].
  - apply bind_Ok_inv in H as (e & He & H).
    destruct (IH _ _ H) as (evs & -> & Hall). simpl.
    exists (e :: evs). rewrite <- app_assoc. split; [reflexivity|].
    constructor; assumption.
Qed.

Lemma generate_ok (text : list N) (start : date) (dest : list N) cal warnings :
  generate_ics_content text start dest = (Some cal, warnings) ->
  warnings = [] /\ build_calendar text start dest = Ok cal.
Proof.
  unfold generate_ics_content.
  destruct (build_calendar text start dest) as [cal0|e]; simpl; intros [= <- <-]; auto.
Qed.

Lemma generate_raise (text : list N) (start : date) (dest : list N) (e : exn) :
  build_calendar text start dest = Raise e ->
  generate_ics_content text start dest = (None, [Warning (ics_failed e)]).
Proof. intros H. unfold generate_ics_content. rewrite H. reflexivity. Qed.

(** A calendar that is returned holds one event per match, in order. *)
Lemma generate_events (text : list N) (start : date) (dest : list N) cal warnings :
  generate_ics_content text start dest = (Some cal, warnings) ->
  Forall2 (fun day ev => day_event start dest day = Ok ev)
          (findall_days text) (events cal).
Proof.
  intros H. apply generate_ok in H as [_ H]. unfold build_calendar in H.
  apply add_days_ok in H as (evs & -> & Hall). exact Hall.
Qed.

Lemma Forall2_In_left {A B} (P : A -> B -> Prop) (l1 : list A) (l2 : list B) (a : A) :
  Forall2 P l1 l2 -> In a l1 -> exists b, In b l2 /\ P a b.
Proof.
  induction 1 as [|x y l1 l2 Hxy _ IH]; [intros []|].
  intros [<-|Hin].
  - exists y. split; [now left | exact Hxy].
  - destruct (IH Hin) as (b & Hb & Hab). exists b. split; [now right | exact Hab].
Qed.

(** C2 (amended). Whenever the extraction returns a calendar, that is,
    unless a date computation raises (the case of C8), the calendar holds
    exactly one event per match of the day pattern, in match order; the
    event of a match with day number [k] starts at the start date plus
    [k - 1] days and ends one day later, its description is the captured
    text stripped, and its summary is "Day ", the captured number, " in "
    and the destination.  A text without day marker gives the calendar
    without events and no warning.  The two-day plan starting on
    2026-03-10 gives the events of 10-11 March and of 11-12 March. *)
Theorem C2_events_follow_matches (text : str) (startDate : date) (dest : str) :
  (forall cal warnings,
     generate_ics_content text startDate dest = (Some cal, warnings) ->
     warnings = [] /\
     Forall2 (fun day ev =>
                dtstart ev = startDate + (digits_value (fst day) - 1) /\
                dtend ev = dtstart ev + 1 /\
                description ev = strip (snd day) /\
                summary ev = lit "Day " ++ fst day ++ lit " in " ++ dest)
             (findall_days text) (events cal)) /\
  (has_day_marker text = false ->
     generate_ics_content text startDate dest = (Some empty_calendar, [])) /\
  generate_ics_content museum_plan (ymd_to_ord 2026 3 10) dest =
    (Some (mk_calendar (prodid empty_calendar) (version empty_calendar)
             [mk_event (lit "Day 1 in " ++ dest) (lit "Visit museum")
                       (ymd_to_ord 2026 3 10) (ymd_to_ord 2026 3 11);
              mk_event (lit "Day 2 in " ++ dest) (lit "Relax")
                       (ymd_to_ord 2026 3 11) (ymd_to_ord 2026 3 12)]),
     []).
Proof.
  split; [|split].
  - intros cal warnings H. split; [apply (generate_ok _ _ _ _ _ H)|].
    apply generate_events in H.
    eapply Forall2_impl; [exact H|].
    intros [d_num content] ev Hev. apply day_event_ok in Hev.
    simpl. tauto.
  - intros H. unfold generate_ics_content, build_calendar.
    rewrite (findall_days_no_marker _ H). reflexivity.
  - vm_compute. reflexivity.
Qed.

(** ** The display section *)

(** What the display section writes for a non-empty stored itinerary. *)
Lemma show_itinerary_some (inp : inputs) (ss : session) (text : str) :
  itinerary ss = Some text ->
  truthy text = true ->
  show_itinerary inp ss =
    [Divider] ++ display_full_itinerary text ++
    snd (generate_ics_content text (arrival_date inp) (destination inp)) ++
    match fst (generate_ics_content text (arrival_date inp) (destination inp)) with
    | Some cal => [sync_button inp cal]
    | None => []
    end.
Proof.
  intros Hit Ht. unfold show_itinerary. rewrite Hit, Ht.
  destruct (generate_ics_content text (arrival_date inp) (destination inp))
    as [ics_data warnings].
  reflexivity.
Qed.

(** C7 (amended). When the generation succeeds, the itinerary stored in
    the session is the response text of every chunk, in chunk order, each
    one (the last included) followed by a blank line, with nothing else
    added, dropped or moved; and this very string is what the display
    section passes to [display_full_itinerary] and to
    [generate_ics_content]. *)
Theorem C7_itinerary_is_chunks_in_order (net : endpoint) (model : agent)
    (inp : inputs) (tool : serper) (ss : session) (full : str) :
  truthy (destination inp) = true ->
  1 <= num_days inp ->
  fst (plan net model inp tool) = Ok full ->
  let search_results := fst (initial_search net inp tool) in
  let ss' := fst (fst (generate_plan net model inp tool ss)) in
  exists responses,
    Forall2 (fun c r =>
               run_chunk (model (query_chunk inp search_results (fst c) (snd c))) = Ok r)
            (enumerate (py_range 1 (num_days inp + 1) chunk_size)) responses /\
    full = concat (List.map (fun r => r ++ nl ++ nl) responses) /\
    itinerary ss' = Some full /\
    show_itinerary inp ss' =
      [Divider] ++ display_full_itinerary full ++
      snd (generate_ics_content full (arrival_date inp) (destination inp)) ++
      match fst (generate_ics_content full (arrival_date inp) (destination inp)) with
      | Some cal => [sync_button inp cal]
      | None => []
      end.
Proof.
  intros Hdest Hn Hplan sr ss'. subst sr ss'.
  unfold generate_plan. rewrite Hdest. simpl negb. cbv iota.
  rewrite plan_eq in Hplan |- *. simpl in Hplan. rewrite Hplan.
  destruct (chunk_loop_ok _ _ _ _ _ _ Hplan) as (responses & Hall & Hfull).
  simpl in Hfull. exists responses.
  split; [exact Hall|]. split; [exact Hfull|]. split; [reflexivity|].
  apply show_itinerary_some; [reflexivity|].
  destruct (chunks_first (num_days inp) Hn) as [k Hk]. rewrite Hk in Hall.
  inversion Hall as [|c r cs rs _ _ Ec Er]. subst responses full.
  simpl. destruct r; reflexivity.
Qed.

(** C8. If anything raises while the calendar is built, the function
    returns [None] and writes the warning "ICS generation failed: "
    followed by the description of the exception; the page then shows the
    divider, the itinerary as always, and that warning, and no download
    button. *)
Theorem C8_failed_extraction_withholds_calendar (inp : inputs) (ss : session)
    (plan_text : str) (e : exn) :
  itinerary ss = Some plan_text ->
  build_calendar plan_text (arrival_date inp) (destination inp) = Raise e ->
  generate_ics_content plan_text (arrival_date inp) (destination inp) =
    (None, [Warning (lit "ICS generation failed: " ++ exn_descr e)]) /\
  show_itinerary inp ss =
    [Divider] ++ display_full_itinerary plan_text ++
    [Warning (lit "ICS generation failed: " ++ exn_descr e)].
Proof.
  intros Hit Hraise.
  pose proof (generate_raise _ _ _ _ Hraise) as Hgen.
  split; [exact Hgen|].
  rewrite (show_itinerary_some inp ss plan_text Hit).
  - rewrite Hgen. reflexivity.
  - destruct plan_text as [|c s]; [|reflexivity].
    unfold build_calendar in Hraise.
    rewrite (findall_days_no_marker []) in Hraise by reflexivity.
    discriminate.
Qed.

(** C10. Nothing in the pattern asks for a word boundary before "Day":
    wherever the letters d, a, y (in any case), optional white space and a
    digit occur in the text, one of the matches has them as its day
    marker, with at most a heading of [#] and white space between the
    start of the match and the letters, and digits that follow them as its
    day number; so a calendar that is returned has an event named after
    those digits.  "Sunday 5: rest" contains such a marker inside a word,
    and yields the one event "Day 5", four days after the start date. *)
Theorem C10_day_marker_inside_words (dest : str) :
  (forall pre suf,
     marker_at suf = true ->
     exists m pre0 h,
       In m (finditer day_pattern (pre ++ suf)) /\
       pre = pre0 ++ h /\ m_start m = length pre0 /\
       forallb heading_char h = true /\
       (length pre < m_end m)%nat /\
       names_day suf (group 1 (m_caps m))) /\
  (forall pre suf start cal warnings,
     marker_at suf = true ->
     generate_ics_content (pre ++ suf) start dest = (Some cal, warnings) ->
     exists ev d_num,
       In ev (events cal) /\ names_day suf d_num /\
       summary ev = lit "Day " ++ d_num ++ lit " in " ++ dest /\
       dtstart ev = start + (digits_value d_num - 1)) /\
  marker_at (lit "day 5: rest") = true /\
  generate_ics_content (lit "Sun" ++ lit "day 5: rest") (ymd_to_ord 2026 3 10) dest =
    (Some (mk_calendar (prodid empty_calendar) (version empty_calendar)
             [mk_event (lit "Day 5 in " ++ dest) (lit "rest")
                       (ymd_to_ord 2026 3 14) (ymd_to_ord 2026 3 15)]),
     []).
Proof.
  assert (forall pre suf,
     marker_at suf = true ->
     exists m pre0 h,
       In m (finditer day_pattern (pre ++ suf)) /\
       pre = pre0 ++ h /\ m_start m = length pre0 /\
       forallb heading_char h = true /\
       (length pre < m_end m)%nat /\
       names_day suf (group 1 (m_caps m))) as Hmatch.
  { intros pre suf Hmk.
    destruct (scan_finds_marker pre 0 0 suf Hmk) as (m & pre0 & h & H); [lia|].
    exists m, pre0, h. exact H. }
  split; [exact Hmatch|]. split; [|split; vm_compute; reflexivity].
  intros pre suf start cal warnings Hmk Hgen.
  destruct (Hmatch pre suf Hmk) as (m & pre0 & h & Hin & _ & _ & _ & _ & Hnd).
  apply generate_events in Hgen.
  assert (In (group 1 (m_caps m), group 2 (m_caps m)) (findall_days (pre ++ suf)))
    as Hday by (unfold findall_days; apply in_map_iff; exists m; auto).
  destruct (Forall2_In_left _ _ _ _ Hgen Hday) as (ev & Hev & Hok).
  apply day_event_ok in Hok as (Hsum & _ & Hstart & _).
  exists ev, (group 1 (m_caps m)). auto.
Qed.

End ExtractorProperties.

Lemma C7_itinerary_is_chunks_in_order_witness :
  exists responses,
    Forall2 (fun c r =>
               run_chunk (terse_agent
                 (query_chunk (trip 4)
                    (fst (initial_search good_endpoint (trip 4) new_tool))
                    (fst c) (snd c))) = Ok r)
            (enumerate (py_range 1 (num_days (trip 4) + 1) chunk_size)) responses /\
    lit "A" ++ nl ++ nl ++ lit "A" ++ nl ++ nl =
      concat (List.map (fun r => r ++ nl ++ nl) responses).
Proof.
  destruct (C7_itinerary_is_chunks_in_order (udb := ascii_digits)
              good_endpoint terse_agent (trip 4) new_tool new_session
              (lit "A" ++ nl ++ nl ++ lit "A" ++ nl ++ nl))
    as (responses & Hall & Hfull & _).
  - reflexivity.
  - simpl. lia.
  - vm_compute. reflexivity.
  - exists responses. split; assumption.
Defined.

(** C2, as stated, fails for a day number beyond the range of dates: the
    text has one match, and the extraction returns no calendar, so no
    event at all. *)
Lemma C2_counterexample_day_out_of_range :
  findall_days (udb := ascii_digits) far_plan = [(lit "1000000000", [])] /\
  generate_ics_content (udb := ascii_digits) far_plan march_10 (lit "Rome") =
    (None, [Warning (lit "ICS generation failed: date value out of range")]).
Proof. vm_compute. split; reflexivity. Qed.

Lemma C2_events_follow_matches_witness :
  Forall2 (fun day ev =>
             dtstart ev = march_10 + (digits_value (udb := ascii_digits) (fst day) - 1) /\
             dtend ev = dtstart ev + 1 /\
             description ev = strip (snd day) /\
             summary ev = lit "Day " ++ fst day ++ lit " in " ++ lit "Rome")
          (findall_days (udb := ascii_digits) museum_plan)
          [mk_event (lit "Day 1 in Rome") (lit "Visit museum") 739685 739686;
           mk_event (lit "Day 2 in Rome") (lit "Relax") 739686 739687] /\
  generate_ics_content (udb := ascii_digits) (lit "no marker here") march_10 (lit "Rome") =
    (Some empty_calendar, []).
Proof.
  split.
  - destruct (C2_events_follow_matches (udb := ascii_digits) museum_plan march_10
                (lit "Rome")) as (H & _ & _).
    apply (H (mk_calendar (prodid empty_calendar) (version empty_calendar)
                [mk_event (lit "Day 1 in Rome") (lit "Visit museum") 739685 739686;
                 mk_event (lit "Day 2 in Rome") (lit "Relax") 739686 739687]) []).
    vm_compute. reflexivity.
  - destruct (C2_events_follow_matches (udb := ascii_digits) (lit "no marker here")
                march_10 (lit "Rome")) as (_ & H & _).
    apply H. vm_compute. reflexivity.
Defined.

Lemma C8_failed_extraction_withholds_calendar_witness :
  generate_ics_content (udb := ascii_digits) far_plan
      (arrival_date (trip 3)) (destination (trip 3)) =
    (None, [Warning (lit "ICS generation failed: " ++ lit "date value out of range")]) /\
  show_itinerary (udb := ascii_digits) (trip 3) far_session =
    [Divider] ++ display_full_itinerary far_plan ++
    [Warning (lit "ICS generation failed: " ++ lit "date value out of range")].
Proof.
  apply (C8_failed_extraction_withholds_calendar (udb := ascii_digits)
           (trip 3) far_session far_plan
           (OverflowError (lit "date value out of range"))).
  - reflexivity.
  - vm_compute. reflexivity.
Defined.

Lemma C10_day_marker_inside_words_witness :
  exists m pre0 h,
    In m (finditer (day_pattern (udb := ascii_digits)) (lit "Sun" ++ lit "day 5: rest")) /\
    lit "Sun" = pre0 ++ h /\ m_start m = length pre0 /\
    forallb heading_char h = true /\
    (length (lit "Sun") < m_end m)%nat /\
    names_day (udb := ascii_digits) (lit "day 5: rest") (group 1 (m_caps m)).
Proof.
  destruct (C10_day_marker_inside_words (udb := ascii_digits) (lit "Rome")) as (H & _).
  apply (H (lit "Sun") (lit "day 5: rest")). vm_compute. reflexivity.
Defined.

(** * Further properties *)

(** ** The search client: retries and the cache *)

(** The loop when its first [k] attempts fail and the next one succeeds
    before the attempts run out. *)
Lemma search_loop_recovers net query retries text (k : nat) : forall n a self,
  a + Z.of_nat n = retries ->
  (k < n)%nat ->
  (forall j, (j < k)%nat -> exists e, fetch net query (posts self + j) = Raise e) ->
  fetch net query (posts self + k) = Ok text ->
  search_loop net query retries (range_from a 1 n) self =
    (Some text, mk_serper (<[query := text]> (cache self)) (posts self + k + 1)).
Proof.
  induction k as [|k IH]; intros n a self Ha Hk Hfail Hok.
  - destruct n as [|n]; [lia|]. simpl range_from. cbn [search_loop].
    rewrite Nat.add_0_r in Hok. rewrite (search_attempt_ok _ _ _ _ _ _ Hok).
    do 3 f_equal. lia.
  - destruct n as [|n]; [lia|].
    change (range_from a 1 (S n)) with (a :: range_from (a + 1) 1 n).
    cbn [search_loop].
    destruct (Hfail 0%nat) as [e He]; [lia|]. rewrite Nat.add_0_r in He.
    rewrite (search_attempt_fail _ _ _ _ _ _ He).
    destruct (Z.eqb_spec a (retries - 1)) as [Heq|_]; [lia|].
    rewrite (IH n (a + 1) (mk_serper (cache self) (S (posts self)))); simpl.
    + do 3 f_equal. lia.
    + lia.
    + lia.
    + intros j Hj. destruct (Hfail (S j)) as [e' He']; [lia|].
      exists e'. rewrite <- He'. f_equal. lia.
    + rewrite <- Hok. f_equal. lia.
Qed.

(** The loop when every attempt fails. *)
Lemma search_loop_all_fail net query retries e (n : nat) : forall a self,
  a + Z.of_nat (S n) = retries ->
  (forall j, (j < n)%nat -> exists e', fetch net query (posts self + j) = Raise e') ->
  fetch net query (posts self + n) = Raise e ->
  search_loop net query retries (range_from a 1 (S n)) self =
    (Some (search_failed retries e), mk_serper (cache self) (posts self + S n)).
Proof.
  induction n as [|n IH]; intros a self Ha Hfail Hlast.
  - simpl range_from. cbn [search_loop].
    rewrite Nat.add_0_r in Hlast. rewrite (search_attempt_fail _ _ _ _ _ _ Hlast).
    destruct (Z.eqb_spec a (retries - 1)) as [_|Hne]; [|lia].
    do 3 f_equal. lia.
  - change (range_from a 1 (S (S n))) with (a :: range_from (a + 1) 1 (S n)).
    cbn [search_loop].
    destruct (Hfail 0%nat) as [e0 He0]; [lia|]. rewrite Nat.add_0_r in He0.
    rewrite (search_attempt_fail _ _ _ _ _ _ He0).
    destruct (Z.eqb_spec a (retries - 1)) as [Heq|_]; [lia|].
    rewrite (IH (a + 1) (mk_serper (cache self) (S (posts self)))); simpl.
    + do 3 f_equal. lia.
    + lia.
    + intros j Hj. destruct (Hfail (S j)) as [e' He']; [lia|].
      exists e'. rewrite <- He'. f_equal. lia.
    + rewrite <- Hlast. f_equal. lia.
Qed.

Lemma search_miss net query retries self :
  cache self !! query = None -> 1 <= retries ->
  search net query retries self =
    search_loop net query retries (range_from 0 1 (Z.to_nat retries)) self.
Proof.
  intros Hmiss Hr. unfold search. rewrite Hmiss.
  unfold py_range. now rewrite range_len_unit by lia.
Qed.

(** X1. A call whose first [k] attempts fail and whose next attempt, still
    within the limit, succeeds returns the fetched text, stores it under
    the query and has issued [k + 1] requests. *)
Theorem X1_search_recovers_within_limit (net : endpoint) (query : str)
    (retries : Z) (self : serper) (k : nat) (text : str) :
  cache self !! query = None ->
  Z.of_nat k < retries ->
  (forall j, (j < k)%nat -> exists e, fetch net query (posts self + j) = Raise e) ->
  fetch net query (posts self + k) = Ok text ->
  search net query retries self =
    (Some text, mk_serper (<[query := text]> (cache self)) (posts self + k + 1)).
Proof.
  intros Hmiss Hk Hfail Hok. rewrite search_miss by (assumption || lia).
  apply search_loop_recovers; try assumption; lia.
Qed.

Lemma X1_search_recovers_within_limit_witness :
  search flaky_endpoint weather_query default_retries new_tool =
    (Some one_hit_text,
     mk_serper (<[weather_query := one_hit_text]> (cache new_tool)) (posts new_tool + 1 + 1)).
Proof.
  apply (X1_search_recovers_within_limit flaky_endpoint weather_query
           default_retries new_tool 1 one_hit_text).
  - reflexivity.
  - unfold default_retries. lia.
  - intros j Hj. exists request_timeout. assert (j = 0%nat) as -> by lia. reflexivity.
  - reflexivity.
Defined.

(** X2. For any limit of at least one attempt, a call all of whose
    attempts fail returns the failure text naming the limit and the last
    exception, has issued as many requests as the limit, and leaves the
    cache as it was: a failure is never cached, so the query is still
    missing afterwards. *)
Theorem X2_search_failure_not_cached (net : endpoint) (query : str)
    (retries : Z) (self : serper) (e : exn) :
  cache self !! query = None ->
  1 <= retries ->
  (forall j, (j < Z.to_nat retries)%nat ->
     exists e', fetch net query (posts self + j) = Raise e') ->
  fetch net query (posts self + Z.to_nat retries - 1) = Raise e ->
  search net query retries self =
    (Some (search_failed retries e),
     mk_serper (cache self) (posts self + Z.to_nat retries)) /\
  cache (snd (search net query retries self)) !! query = None.
Proof.
  intros Hmiss Hr Hfail Hlast.
  assert (search net query retries self =
          (Some (search_failed retries e),
           mk_serper (cache self) (posts self + Z.to_nat retries))) as H.
  { rewrite search_miss by assumption.
    destruct (Z.to_nat retries) as [|n] eqn:Hn; [lia|].
    apply search_loop_all_fail.
    - lia.
    - intros j Hj. apply Hfail. lia.
    - rewrite <- Hlast. f_equal. lia. }
  split; [exact H|]. rewrite H. exact Hmiss.
Qed.

Lemma X2_search_failure_not_cached_witness :
  search dead_endpoint weather_query 3 new_tool =
    (Some (search_failed 3 request_timeout),
     mk_serper (cache new_tool) (posts new_tool + Z.to_nat 3)) /\
  cache (snd (search dead_endpoint weather_query 3 new_tool)) !! weather_query = None.
Proof.
  apply (X2_search_failure_not_cached dead_endpoint weather_query 3 new_tool
           request_timeout).
  - reflexivity.
  - lia.
  - intros j _. exists request_timeout. reflexivity.
  - reflexivity.
Defined.

Lemma range_from_length (a step : Z) (n : nat) : length (range_from a step n) = n.
Proof. revert a. induction n as [|n IH]; intros a; simpl; [|rewrite IH]; reflexivity. Qed.

Lemma search_loop_posts net query retries attempts : forall self,
  (posts self <= posts (snd (search_loop net query retries attempts self))
   <= posts self + length attempts)%nat.
Proof.
  induction attempts as [|a later IH]; intros self; cbn [search_loop]; [simpl; lia|].
  destruct (fetch net query (posts self)) as [text|e] eqn:Hf.
  - rewrite (search_attempt_ok _ _ _ _ _ _ Hf). simpl. lia.
  - rewrite (search_attempt_fail _ _ _ _ _ _ Hf).
    destruct (a =? retries - 1); [simpl; lia|].
    specialize (IH (mk_serper (cache self) (S (posts self)))). simpl in IH |- *. lia.
Qed.

(** X3. A call issues at most [retries] requests (none for a limit of
    zero or less), and none at all when the query is cached: the tool is
    then left exactly as it was, whatever the limit. *)
Theorem X3_search_request_bound (net : endpoint) (query : str) (retries : Z)
    (self : serper) :
  (posts self <= posts (snd (search net query retries self))
   <= posts self + Z.to_nat retries)%nat /\
  (forall text, cache self !! query = Some text ->
     search net query retries self = (Some text, self)).
Proof.
  split.
  - unfold search. destruct (cache self !! query); [simpl; lia|].
    pose proof (search_loop_posts net query retries (py_range 0 retries 1) self) as H.
    unfold py_range in H |- *. rewrite range_from_length in H.
    assert (Z.to_nat (range_len 0 retries 1) <= Z.to_nat retries)%nat.
    { destruct (Z_lt_le_dec 0 retries).
      - rewrite range_len_unit by lia. lia.
      - rewrite range_len_empty by lia. lia. }
    lia.
  - intros text H. unfold search. rewrite H. reflexivity.
Qed.



(** X5. A successful response without the "organic" key, or with an empty
    list under it, gives the empty string; the empty string is cached like
    any other result, so a second call returns it without a request. *)
Theorem X5_search_empty_result_cached (net : endpoint) (query : str)
    (self : serper) (resp : response) :
  cache self !! query = None ->
  net (posts self) query = Ok resp ->
  raise_for_status resp = Ok tt ->
  json resp = Ok (mk_json None) \/ json resp = Ok (mk_json (Some [])) ->
  exists self',
    search net query default_retries self = (Some [], self') /\
    posts self' = S (posts self) /\
    cache self' !! query = Some [] /\
    search net query default_retries self' = (Some [], self').
Proof.
  intros Hmiss Hnet Hst Hjson.
  assert (fetch net query (posts self) = Ok []) as Hf.
  { unfold fetch. rewrite Hnet, bind_Ok, Hst, bind_Ok.
    destruct Hjson as [-> | ->]; reflexivity. }
  exists (mk_serper (<[query := []]> (cache self)) (S (posts self))).
  assert (search net query default_retries self =
          (Some [], mk_serper (<[query := []]> (cache self)) (S (posts self)))) as H.
  { unfold search. rewrite Hmiss.
    change (py_range 0 default_retries 1) with [0; 1].
    cbn [search_loop]. now rewrite (search_attempt_ok _ _ _ _ _ _ Hf). }
  split; [exact H|]. split; [reflexivity|]. split; [apply lookup_insert_eq|].
  unfold search. simpl. now rewrite lookup_insert_eq.
Qed.

Lemma X3_search_request_bound_witness :
  search flaky_endpoint weather_query default_retries
    (mk_serper (<[weather_query := one_hit_text]> ∅) 5) =
  (Some one_hit_text, mk_serper (<[weather_query := one_hit_text]> ∅) 5).
Proof.
  apply (X3_search_request_bound flaky_endpoint weather_query default_retries
           (mk_serper (<[weather_query := one_hit_text]> ∅) 5)).
  simpl. apply lookup_insert_eq.
Defined.


Lemma X5_search_empty_result_cached_witness :
  exists self',
    search bare_endpoint weather_query default_retries new_tool = (Some [], self') /\
    posts self' = S (posts new_tool) /\
    cache self' !! weather_query = Some [] /\
    search bare_endpoint weather_query default_retries self' = (Some [], self').
Proof.
  apply (X5_search_empty_result_cached bare_endpoint weather_query new_tool
           (mk_response (Ok tt) (Ok (mk_json None)))).
  - reflexivity.
  - reflexivity.
  - reflexivity.
  - left. reflexivity.
Defined.

(** ** Generation: streams, success and the search text *)

Lemma add_chunk_text (acc : list N) (chunk : run_item) :
  add_chunk acc chunk = acc ++ item_text chunk.
Proof.
  destruct chunk as [[content|]|s]; simpl; try reflexivity.
  - destruct content; simpl; [now rewrite app_nil_r | reflexivity].
  - now rewrite app_nil_r.
Qed.

Lemma fold_add_chunk (items : list run_item) : forall acc,
  fold_left add_chunk items acc = acc ++ concat (List.map item_text items).
Proof.
  induction items as [|c items IH]; intros acc; simpl.
  - now rewrite app_nil_r.
  - now rewrite IH, add_chunk_text, <- app_assoc.
Qed.

(** X6. The response of a chunk is the text of the streamed items in
    arrival order: the content of an item that has one, a plain string as
    it is, nothing for any other item; and if the stream raises, at
    whatever point, all of it is lost. *)
Theorem X6_fragments_in_arrival_order (stream : run_stream) :
  run_chunk stream =
    match raised stream with
    | Some e => Raise e
    | None => Ok (concat (List.map item_text (yielded stream)))
    end.
Proof. unfold run_chunk. now rewrite fold_add_chunk. Qed.

Lemma chunk_loop_all_ok model inp sr (chunks : list (Z * Z)) : forall acc,
  (forall i s, In (i, s) chunks -> raised (model (query_chunk inp sr i s)) = None) ->
  exists full, chunk_loop model inp sr chunks acc = Ok full.
Proof.
  induction chunks as [|[j s] later IH]; intros acc Hall; cbn [chunk_loop]; [eauto|].
  unfold run_chunk at 1. rewrite (Hall j s) by now left. rewrite bind_Ok.
  apply IH. intros i s' Hin. apply Hall. now right.
Qed.

(** X7. Only the agent can make a generation fail: whatever the search
    endpoint does, the plan is produced exactly when no run of the agent,
    for any chunk of the loop, raises. *)
Theorem X7_generation_fails_only_by_agent (net : endpoint) (model : agent)
    (inp : inputs) (tool : serper) :
  (exists full, fst (plan net model inp tool) = Ok full) <->
  (forall i start_day,
     In (i, start_day) (enumerate (py_range 1 (num_days inp + 1) chunk_size)) ->
     raised (model (query_chunk inp (fst (initial_search net inp tool)) i start_day))
       = None).
Proof.
  rewrite plan_eq. simpl. split.
  - intros [full Hfull] i start_day Hin.
    destruct (raised (model (query_chunk inp _ i start_day))) as [e0|] eqn:Hr;
      [|reflexivity].
    destruct (chunk_loop_raises model inp _ _ [] _ _ _ Hin Hr) as [e He].
    congruence.
  - apply chunk_loop_all_ok.
Qed.

Lemma X7_generation_fails_only_by_agent_witness :
  exists full, fst (plan dead_endpoint chatty_agent (trip 5) new_tool) = Ok full.
Proof.
  apply (X7_generation_fails_only_by_agent dead_endpoint chatty_agent (trip 5) new_tool).
  intros i start_day _. reflexivity.
Defined.

(** X8. When both attempts of the initial search fail, the generation goes
    on all the same and the failure text takes the place of the search
    results: the request of the first chunk ends with
    "Search failed after 2 attempts: " and the description of the last
    exception. *)
Theorem X8_failed_search_text_reaches_agent (net : endpoint) (inp : inputs)
    (tool : serper) (e1 e2 : exn) :
  search_mode inp ∈ search_modes ->
  cache tool !! essential_query inp = None ->
  fetch net (essential_query inp) (posts tool) = Raise e1 ->
  fetch net (essential_query inp) (S (posts tool)) = Raise e2 ->
  initial_search net inp tool =
    (Some (lit "Search failed after 2 attempts: " ++ exn_descr e2),
     mk_serper (cache tool) (S (S (posts tool)))) /\
  query_chunk inp (fst (initial_search net inp tool)) 0 1 =
    plan_request inp 1 (end_day (num_days inp) 1) ++
    lit " Include Essential Info and Weather. Use these search results:" ++ nl ++
    lit "Search failed after 2 attempts: " ++ exn_descr e2.
Proof.
  intros Hmode Hmiss H1 H2.
  assert (initial_search net inp tool =
          (Some (lit "Search failed after 2 attempts: " ++ exn_descr e2),
           mk_serper (cache tool) (S (S (posts tool))))) as H.
  { unfold initial_search. rewrite bool_decide_eq_true_2 by exact Hmode.
    rewrite search_miss by (assumption || (unfold default_retries; lia)).
    change (Z.to_nat default_retries) with 2%nat.
    rewrite (search_loop_all_fail net _ default_retries e2 1 0 tool).
    - do 3 f_equal. lia.
    - reflexivity.
    - intros j Hj. assert (j = 0%nat) as -> by lia. exists e1.
      now rewrite Nat.add_0_r.
    - rewrite <- H2. f_equal. lia. }
  split; [exact H|]. rewrite H. reflexivity.
Qed.

Lemma X8_failed_search_text_reaches_agent_witness :
  query_chunk (trip 5) (fst (initial_search dead_endpoint (trip 5) new_tool)) 0 1 =
    plan_request (trip 5) 1 (end_day (num_days (trip 5)) 1) ++
    lit " Include Essential Info and Weather. Use these search results:" ++ nl ++
    lit "Search failed after 2 attempts: " ++ exn_descr request_timeout.
Proof.
  apply (X8_failed_search_text_reaches_agent dead_endpoint (trip 5) new_tool
           request_timeout request_timeout).
  - vm_compute. left.
  - reflexivity.
  - reflexivity.
  - reflexivity.
Defined.

Section ExtractorFurther.
Context {udb : unicode_db}.

(** ** The extractor: when it succeeds *)

Lemma py_int_small (s : list N) :
  (length s <= int_max_str_digits)%nat -> py_int s = Ok (digits_value s).
Proof.
  intros H. unfold py_int.
  destruct (Nat.ltb_spec int_max_str_digits (length s)); [lia | reflexivity].
Qed.

Lemma py_int_ok_length (s : list N) (n : Z) :
  py_int s = Ok n -> (length s <= int_max_str_digits)%nat.
Proof.
  unfold py_int.
  destruct (Nat.ltb_spec int_max_str_digits (length s)); [discriminate | lia].
Qed.

Lemma timedelta_days_small (n : Z) :
  - 999999999 <= n <= 999999999 -> timedelta_days n = Ok n.
Proof.
  intros H. unfold timedelta_days.
  destruct (Z.ltb_spec n (- 2147483648)); [lia|].
  destruct (Z.ltb_spec 2147483647 n); [lia|]. simpl.
  destruct (Z.ltb_spec n (- 999999999)); [lia|].
  destruct (Z.ltb_spec 999999999 n); [lia|]. reflexivity.
Qed.

Lemma date_add_in_range (d : date) (delta : Z) :
  1 <= d + delta <= MAXORDINAL -> date_add d delta = Ok (d + delta).
Proof.
  intros H. unfold date_add.
  destruct (Z.leb_spec 1 (d + delta)); [|lia].
  destruct (Z.leb_spec (d + delta) MAXORDINAL); [reflexivity | lia].
Qed.

(** The event of a match exists exactly when its day number is in range. *)
Lemma day_event_iff (start : date) (dest d_num content : list N) :
  1 <= start <= MAXORDINAL ->
  (exists ev, day_event start dest (d_num, content) = Ok ev) <->
  day_in_range start d_num = true.
Proof.
  intros Hstart. unfold day_in_range, MAXORDINAL in *. split.
  - intros [ev H]. unfold day_event in H.
    apply bind_Ok_inv in H as (n & Hn & H).
    pose proof (py_int_ok_length _ _ Hn) as Hlen. apply py_int_ok in Hn.
    apply bind_Ok_inv in H as (delta & Hdelta & H). apply timedelta_days_ok in Hdelta.
    apply bind_Ok_inv in H as (s & Hs & H). apply date_add_ok in Hs as [Hs Hsb].
    apply bind_Ok_inv in H as (n' & Hn' & H). apply py_int_ok in Hn'.
    apply bind_Ok_inv in H as (delta' & Hdelta' & H). apply timedelta_days_ok in Hdelta'.
    apply bind_Ok_inv in H as (e & He & H). apply date_add_ok in He as [He Heb].
    subst. unfold MAXORDINAL in *.
    apply andb_true_iff. split; [apply andb_true_iff; split|].
    + apply Nat.leb_le. exact Hlen.
    + apply Z.leb_le. lia.
    + apply Z.leb_le. lia.
  - intros H. apply andb_true_iff in H as [H H3]. apply andb_true_iff in H as [H1 H2].
    apply Nat.leb_le in H1. apply Z.leb_le in H2, H3.
    unfold day_event. rewrite (py_int_small _ H1), bind_Ok.
    rewrite timedelta_days_small, bind_Ok by lia.
    rewrite date_add_in_range, bind_Ok by (unfold MAXORDINAL; lia).
    rewrite bind_Ok.
    rewrite timedelta_days_small, bind_Ok by lia.
    rewrite date_add_in_range, bind_Ok by (unfold MAXORDINAL; lia).
    eauto.
Qed.

Lemma add_days_iff (start : date) (dest : list N) (days : list (list N * list N)) :
  1 <= start <= MAXORDINAL ->
  forall cal,
  (exists cal', add_days start dest days cal = Ok cal') <->
  forallb (fun day => day_in_range start (fst day)) days = true.
Proof.
  intros Hstart. induction days as [|[d_num content] later IH]; intros cal;
    cbn [add_days forallb fst].
  - split; eauto.
  - rewrite andb_true_iff, <- (day_event_iff start dest d_num content Hstart). split.
    + intros [cal' H]. apply bind_Ok_inv in H as (e & He & H).
      split; [eauto|]. eapply IH. eauto.
    + intros [[ev Hev] Hlater]. rewrite Hev, bind_Ok. apply IH. exact Hlater.
Qed.

(** X10. For a start date that is a date, the extraction returns a
    calendar exactly when every matched day number is in range: at most
    4300 digits, and both the start date plus [k - 1] days and the start
    date plus [k] days between 0001-01-01 and 9999-12-31.  One day number
    out of range withholds the whole calendar. *)
Theorem X10_extraction_succeeds_iff_days_in_range (text : str) (start : date)
    (dest : str) :
  1 <= start <= MAXORDINAL ->
  (exists cal, fst (generate_ics_content text start dest) = Some cal) <->
  forallb (fun day => day_in_range start (fst day)) (findall_days text) = true.
Proof.
  intros Hstart.
  rewrite <- (add_days_iff start dest (findall_days text) Hstart empty_calendar).
  unfold generate_ics_content, build_calendar.
  destruct (add_days start dest (findall_days text) empty_calendar) as [cal|e]; simpl.
  - split; eauto.
  - split; intros [cal H]; discriminate.
Qed.

(** ** The extractor: what the matches are made of *)

(** Every match reported by the scan is the match found at some position
    of the text not yet passed. *)
Lemma scan_elem r (s : list N) : forall pos skip m,
  In m (scan r pos skip s) ->
  exists pre suf st',
    s = pre ++ suf /\ (skip <= length pre)%nat /\
    match_here r suf = Some st' /\
    m_start m = (pos + length pre)%nat /\
    m_end m = (m_start m + (length suf - length (rest st')))%nat /\
    m_caps m = caps st'.
Proof.
  induction s as [|c s IH]; intros pos skip m Hin.
  - destruct skip; [|destruct Hin]. rewrite scan_here in Hin.
    destruct (match_here r []) as [st'|] eqn:Hst'; [|destruct Hin].
    destruct Hin as [<-|[]]. exists [], [], st'. simpl. repeat split; auto; lia.
  - destruct skip as [|k].
    + rewrite scan_here in Hin.
      destruct (match_here r (c :: s)) as [st'|] eqn:Hst'.
      * destruct Hin as [<-|Hin].
        -- exists [], (c :: s), st'. cbn [m_start m_end m_caps length app].
           repeat split; auto; lia.
        -- destruct (IH _ _ _ Hin) as (pre & suf & st2 & -> & Hk & Hm & Hs & He & Hc).
           exists (c :: pre), suf, st2. cbn [length app]. repeat split; auto; lia.
      * destruct (IH _ _ _ Hin) as (pre & suf & st2 & -> & Hk & Hm & Hs & He & Hc).
        exists (c :: pre), suf, st2. cbn [length app]. repeat split; auto; lia.
    + rewrite scan_skip in Hin.
      destruct (IH _ _ _ Hin) as (pre & suf & st2 & -> & Hk & Hm & Hs & He & Hc).
      exists (c :: pre), suf, st2. cbn [length app]. repeat split; auto; lia.
Qed.

Lemma digit_after_spaces_app (s r : list N) :
  digit_after_spaces s = true -> digit_after_spaces (s ++ r) = true.
Proof.
  induction s as [|c s IH]; simpl; [discriminate|].
  intros H. apply orb_true_iff in H as [->|H]; [reflexivity|].
  apply andb_true_iff in H as [-> H]. rewrite (IH H). apply orb_true_r.
Qed.

Lemma marker_at_app (s r : list N) :
  marker_at s = true -> marker_at (s ++ r) = true.
Proof.
  destruct s as [|d [|a [|y s]]]; simpl; try discriminate.
  intros H. apply andb_true_iff in H as [-> H]. now rewrite digit_after_spaces_app.
Qed.

Lemma no_marker_inside (c r : list N) :
  (forall c1 c2, c = c1 ++ c2 -> c2 <> [] -> marker_at (c2 ++ r) = false) ->
  has_day_marker c = false.
Proof.
  induction c as [|x c IH]; intros H; [reflexivity|].
  cbn [has_day_marker]. apply orb_false_iff. split.
  - destruct (marker_at (x :: c)) eqn:Hm; [|reflexivity].
    apply (marker_at_app _ r) in Hm.
    assert (marker_at ((x :: c) ++ r) = false) as Hf
      by (apply (H []); [reflexivity | discriminate]).
    congruence.
  - apply IH. intros c1 c2 Hc Hne. apply (H (x :: c1) c2); [now rewrite Hc | exact Hne].
Qed.

(** X11. In every pair reported by [findall] the day number is a
    non-empty string of decimal digits, so that [int()] never meets an
    invalid literal, and the day text contains no day marker; number and
    text are taken from the itinerary in this order with nothing but
    separators (white space, en dash, colon) between them. *)
Theorem X11_findall_pairs_wellformed (text d_num content : str) :
  In (d_num, content) (findall_days text) ->
  d_num <> [] /\ forallb is_digit d_num = true /\
  has_day_marker content = false /\
  exists before sp after,
    text = before ++ d_num ++ sp ++ content ++ after /\ forallb is_sep sp = true.
Proof.
  unfold findall_days, finditer. intros Hin.
  apply in_map_iff in Hin as (m & Heq & Hin). injection Heq as <- <-.
  apply scan_elem in Hin as (pre & suf & st' & -> & _ & Hm & _ & _ & ->).
  destruct (match_here_shape _ _ Hm)
    as (h & d & a & y & w & dg & sp & ct & -> & _ & _ & _ & _ & _ & Hdg & Hne &
        Hsp & Hlazy & ->).
  simpl. split; [exact Hne|]. split; [exact Hdg|]. split.
  - apply (no_marker_inside ct (rest st')). exact Hlazy.
  - exists (pre ++ h ++ d :: a :: y :: w), sp, (rest st'). split; [|exact Hsp].
    repeat (rewrite <- app_assoc || rewrite <- app_comm_cons). reflexivity.
Qed.

Lemma scan_sorted r (s : list N) : forall pos skip,
  StronglySorted (fun m m' => (m_end m <= m_start m')%nat) (scan r pos skip s).
Proof.
  induction s as [|c s IH]; intros pos skip.
  - destruct skip; [|constructor]. rewrite scan_here.
    destruct (match_here r []); repeat constructor.
  - destruct skip as [|k]; [|rewrite scan_skip; apply IH].
    rewrite scan_here.
    destruct (match_here r (c :: s)) as [st'|]; [|apply IH].
    constructor; [apply IH|].
    apply Stdlib.Lists.List.Forall_forall. intros m' Hin.
    apply scan_elem in Hin as (pre & suf & st2 & _ & Hk & _ & Hs & _).
    cbn [m_end]. lia.
Qed.

(** X13. The matches of the day pattern lie within the text, are at least
    four characters long each (the three letters and a digit), and follow
    one another without overlap in the order of the text. *)
Theorem X13_day_matches_disjoint_in_order (text : str) :
  StronglySorted (fun m m' => (m_end m <= m_start m')%nat)
                 (finditer day_pattern text) /\
  Forall (fun m => (m_start m + 4 <= m_end m <= length text)%nat)
         (finditer day_pattern text).
Proof.
  split; [apply scan_sorted|].
  apply Stdlib.Lists.List.Forall_forall. intros m Hin. unfold finditer in Hin.
  apply scan_elem in Hin as (pre & suf & st' & -> & _ & Hm & Hs & He & _).
  destruct (match_here_shape _ _ Hm)
    as (h & d & a & y & w & dg & sp & ct & -> & _ & _ & _ & _ & _ & _ & Hne & _).
  rewrite He, Hs. destruct dg as [|g dg]; [congruence|].
  rewrite !length_app. cbn [length]. rewrite !length_app. cbn [length]. lia.
Qed.

(** ** The extractor: descriptions *)

Lemma lstrip_split (s : list N) :
  exists w, s = w ++ lstrip s /\ forallb is_space w = true.
Proof.
  induction s as [|c s (w & Hw & Hp)]; [now exists []|].
  simpl. destruct (is_space c) eqn:Hc; [|now exists []].
  exists (c :: w). simpl. rewrite Hc, Hp. split; [now rewrite <- Hw | reflexivity].
Qed.

Lemma lstrip_clean (s : list N) : starts_clean (lstrip s) = true.
Proof.
  induction s as [|c s IH]; [reflexivity|]. simpl.
  destruct (is_space c) eqn:Hc; [exact IH|]. simpl. now rewrite Hc.
Qed.

Lemma rstrip_prefix (s : list N) : exists w, s = rstrip s ++ w.
Proof.
  destruct (lstrip_split (rev s)) as (w & Hw & _).
  exists (rev w). unfold rstrip. rewrite <- rev_app_distr, <- Hw.
  now rewrite rev_involutive.
Qed.

Lemma strip_trimmed (s : list N) : trimmed (strip s) = true.
Proof.
  unfold trimmed, strip. apply andb_true_iff. split.
  - pose proof (lstrip_clean s) as Hc.
    destruct (rstrip_prefix (lstrip s)) as (w & Hw).
    destruct (rstrip (lstrip s)) as [|c t]; [reflexivity|].
    rewrite Hw in Hc. exact Hc.
  - unfold rstrip. rewrite rev_involutive. apply lstrip_clean.
Qed.

(** X12. In a calendar that is returned no description starts or ends
    with white space. *)
Theorem X12_descriptions_are_trimmed (text : str) (start : date) (dest : str)
    (cal : calendar) (warnings : list ui) :
  generate_ics_content text start dest = (Some cal, warnings) ->
  Forall (fun ev => trimmed (description ev) = true) (events cal).
Proof.
  intros H. apply generate_events in H.
  induction H as [|[d_num content] ev days evs Hev _ IH]; constructor; [|exact IH].
  apply day_event_ok in Hev as (_ & -> & _). apply strip_trimmed.
Qed.

(** ** The display section: edge cases *)

(** X14. An itinerary without any day marker is still shown with a
    download button: the calendar offered has no events. *)
Theorem X14_no_marker_offers_empty_calendar (inp : inputs) (ss : session)
    (text : str) :
  itinerary ss = Some text ->
  truthy text = true ->
  has_day_marker text = false ->
  show_itinerary inp ss =
    [Divider] ++ display_full_itinerary text ++ [sync_button inp empty_calendar].
Proof.
  intros Hit Ht Hno. rewrite (show_itinerary_some inp ss text Hit Ht).
  unfold generate_ics_content, build_calendar.
  rewrite (findall_days_no_marker _ Hno). reflexivity.
Qed.

End ExtractorFurther.

Lemma march_10_is_date : 1 <= march_10 <= MAXORDINAL.
Proof. split; apply Z.leb_le; reflexivity. Qed.

Lemma X10_extraction_succeeds_iff_days_in_range_witness :
  (exists cal,
     fst (generate_ics_content (udb := ascii_digits) museum_plan march_10 (lit "Rome"))
       = Some cal) /\
  forallb (fun day => day_in_range (udb := ascii_digits) march_10 (fst day))
          (findall_days (udb := ascii_digits) far_plan) = false.
Proof.
  split.
  - apply (X10_extraction_succeeds_iff_days_in_range (udb := ascii_digits)
             museum_plan march_10 (lit "Rome") march_10_is_date).
    vm_compute. reflexivity.
  - destruct (forallb _ (findall_days (udb := ascii_digits) far_plan)) eqn:E;
      [|reflexivity].
    apply (X10_extraction_succeeds_iff_days_in_range (udb := ascii_digits)
             far_plan march_10 (lit "Rome") march_10_is_date) in E.
    destruct E as [cal Hcal]. vm_compute in Hcal. discriminate.
Defined.

Lemma X11_findall_pairs_wellformed_witness :
  lit "2" <> [] /\ forallb (is_digit (udb := ascii_digits)) (lit "2") = true /\
  has_day_marker (udb := ascii_digits) (lit "Relax") = false /\
  exists before sp after,
    museum_plan = before ++ lit "2" ++ sp ++ lit "Relax" ++ after /\
    forallb is_sep sp = true.
Proof.
  apply (X11_findall_pairs_wellformed (udb := ascii_digits) museum_plan
           (lit "2") (lit "Relax")).
  vm_compute. right. left. reflexivity.
Defined.

Lemma X12_descriptions_are_trimmed_witness :
  Forall (fun ev => trimmed (description ev) = true)
         [mk_event (lit "Day 1 in Rome") (lit "Visit museum") 739685 739686;
          mk_event (lit "Day 2 in Rome") (lit "Relax") 739686 739687].
Proof.
  apply (X12_descriptions_are_trimmed (udb := ascii_digits) museum_plan march_10
           (lit "Rome")
           (mk_calendar (prodid empty_calendar) (version empty_calendar)
              [mk_event (lit "Day 1 in Rome") (lit "Visit museum") 739685 739686;
               mk_event (lit "Day 2 in Rome") (lit "Relax") 739686 739687]) []).
  vm_compute. reflexivity.
Defined.

Lemma X14_no_marker_offers_empty_calendar_witness :
  show_itinerary (udb := ascii_digits) (trip 3) note_session =
    [Divider] ++ display_full_itinerary plain_note ++
    [sync_button (trip 3) empty_calendar].
Proof.
  apply (X14_no_marker_offers_empty_calendar (udb := ascii_digits)
           (trip 3) note_session plain_note); reflexivity.
Defined.

(** ** The display: lines and links *)








(** A regular expression that matches nowhere in the text gives no match. *)
Lemma scan_none r (s : list N) : forall pos skip,
  (forall pre suf, s = pre ++ suf -> match_here r suf = None) ->
  scan r pos skip s = [].
Proof.
  induction s as [|c s IH]; intros pos skip H.
  - destruct skip; [|reflexivity]. rewrite scan_here, (H [] []); reflexivity.
  - assert (forall pre suf, s = pre ++ suf -> match_here r suf = None) as Hs
      by (intros pre suf ->; apply (H (c :: pre)); reflexivity).
    destruct skip as [|k]; [|rewrite scan_skip; now apply IH].
    rewrite scan_here, (H [] (c :: s)) by reflexivity. now apply IH.
Qed.

Lemma head_elem {A} (l : list A) (a : A) : head l = Some a -> In a l.
Proof. destruct l; simpl; [discriminate|]. intros [= ->]. now left. Qed.

(** A link starts with the letters "http". *)
Lemma url_match_prefix (s : list N) st' :
  match_here url_pattern s = Some st' -> startswith s (lit "http") = true.
Proof.
  unfold match_here, url_pattern. intros H. apply head_elem in H.
  cbn [run] in H. apply in_map_iff in H as (st1 & _ & H).
  apply in_flat_map in H as (sa & Ha & H).
  change (In sa (run (Class (chr "h")) (mk_mstate s []))) in Ha.
  apply in_run_Class in Ha as (c1 & s1 & Hr1 & Hc1 & ->).
  apply in_flat_map in H as (sb & Hb & H).
  change (In sb (run (Class (chr "t")) (move (mk_mstate s []) s1))) in Hb.
  apply in_run_Class in Hb as (c2 & s2 & Hr2 & Hc2 & ->).
  apply in_flat_map in H as (sc & Hc & H).
  change (In sc (run (Class (chr "t")) (move (move (mk_mstate s []) s1) s2))) in Hc.
  apply in_run_Class in Hc as (c3 & s3 & Hr3 & Hc3 & ->).
  apply in_flat_map in H as (sd & Hd & _).
  change (In sd (run (Class (chr "p"))
                     (move (move (move (mk_mstate s []) s1) s2) s3))) in Hd.
  apply in_run_Class in Hd as (c4 & s4 & Hr4 & Hc4 & ->).
  simpl in Hr1, Hr2, Hr3, Hr4. subst s s1 s2 s3.
  unfold chr in Hc1, Hc2, Hc3, Hc4.
  change (lit "http") with [N_of_ascii "h"; N_of_ascii "t"; N_of_ascii "t"; N_of_ascii "p"].
  cbn [startswith]. rewrite Hc1, Hc2, Hc3, Hc4. destruct s4; reflexivity.
Qed.

Lemma contains_suffix (pre suf sub : list N) :
  startswith suf sub = true -> contains (pre ++ suf) sub = true.
Proof.
  intros H. induction pre as [|c pre IH]; cbn [app contains].
  - destruct suf; cbn [contains]; now rewrite H.
  - rewrite IH. apply orb_true_r.
Qed.

Lemma no_link_no_match (text : list N) :
  contains text (lit "http") = false ->
  finditer url_pattern text = [].
Proof.
  intros H. apply scan_none. intros pre suf ->.
  destruct (match_here url_pattern suf) as [st'|] eqn:Hm; [|reflexivity].
  apply url_match_prefix in Hm. apply (contains_suffix pre) in Hm. congruence.
Qed.

(** X16. The link markup leaves a text that does not contain "http"
    exactly as it is. *)
Theorem X16_text_without_http_unchanged (text : str) :
  contains text (lit "http") = false ->
  re_sub url_pattern link_markup text = text.
Proof.
  intros H. unfold re_sub. rewrite (no_link_no_match _ H). reflexivity.
Qed.

Lemma X16_text_without_http_unchanged_witness :
  re_sub url_pattern link_markup plain_note = plain_note.
Proof. apply (X16_text_without_http_unchanged plain_note). reflexivity. Defined.






(** ** The display: a link in the text *)

Lemma star_greedy_head p (w post : list N) :
  forallb p w = true ->
  match post with [] => True | c :: _ => p c = false end ->
  head (star_greedy p (w ++ post)) = Some post.
Proof.
  intros Hw Hpost. induction w as [|c w IH]; cbn [app].
  - destruct post as [|c post]; [reflexivity|]. cbn [star_greedy]. now rewrite Hpost.
  - simpl in Hw. apply andb_true_iff in Hw as [Hc Hw].
    cbn [star_greedy]. rewrite Hc.
    specialize (IH Hw). destruct (star_greedy p (w ++ post)); [discriminate|].
    exact IH.
Qed.

Lemma run_Cat_Class_hit p r c (s : list N) cs :
  p c = true ->
  run (Cat (Class p) r) (mk_mstate (c :: s) cs) = run r (mk_mstate s cs).
Proof. intros H. cbn [run rest]. rewrite H. simpl. apply app_nil_r. Qed.

Lemma run_Cat_Class_miss p r c (s : list N) cs :
  p c = false -> run (Cat (Class p) r) (mk_mstate (c :: s) cs) = [].
Proof. intros H. cbn [run rest]. rewrite H. reflexivity. Qed.

Lemma run_Cat_Opt_Class_hit p r c (s : list N) cs :
  p c = true ->
  run (Cat (Opt (Class p)) r) (mk_mstate (c :: s) cs) =
    run r (mk_mstate s cs) ++ run r (mk_mstate (c :: s) cs).
Proof. intros H. cbn [run rest]. rewrite H. simpl. now rewrite !app_nil_r. Qed.

Lemma run_Cat_Opt_Class_miss p r c (s : list N) cs :
  p c = false ->
  run (Cat (Opt (Class p)) r) (mk_mstate (c :: s) cs) = run r (mk_mstate (c :: s) cs).
Proof. intros H. cbn [run rest]. rewrite H. simpl. apply app_nil_r. Qed.

Lemma ends_link_stops (post : list N) :
  ends_link post = true ->
  match post with [] => True | c :: _ => not_space c = false end.
Proof. destruct post; [trivial|]. simpl. unfold not_space. now intros ->. Qed.

Lemma run_Plus_head (r post : list N) (c : N) cs :
  not_space c = true -> forallb not_space r = true -> ends_link post = true ->
  head (run (Plus not_space) (mk_mstate (c :: r ++ post) cs)) = Some (mk_mstate post cs).
Proof.
  intros Hc Hr Hpost. cbn [run rest plus_greedy]. rewrite Hc.
  pose proof (star_greedy_head not_space r post Hr (ends_link_stops _ Hpost)) as H.
  destruct (star_greedy not_space (r ++ post)); [discriminate|].
  injection H as ->. reflexivity.
Qed.

(** The match of the link pattern at the start of a link. *)
Lemma url_match (scheme r post : list N) :
  In scheme url_schemes -> r <> [] ->
  forallb not_space r = true -> ends_link post = true ->
  match_here url_pattern (scheme ++ r ++ post) =
    Some (mk_mstate post [(1%nat, scheme ++ r)]).
Proof.
  intros Hscheme Hne Hr Hpost.
  destruct r as [|c r]; [congruence|]. simpl in Hr.
  apply andb_true_iff in Hr as [Hc Hr].
  pose proof (run_Plus_head r post c [] Hc Hr Hpost) as Hplus.
  unfold match_here, url_pattern.
  destruct Hscheme as [<-|[<-|[]]].
  - change (lit "http://" ++ (c :: r) ++ post)
      with (104%N :: 116%N :: 116%N :: 112%N :: 58%N :: 47%N :: 47%N :: c :: r ++ post).
    change (run (Group 1 ?R) ?st)
      with (List.map (fun st' => mk_mstate (rest st')
                        ((1%nat, consumed (rest st) (rest st')) :: caps st'))
                     (run R st)).
    rewrite !run_Cat_Class_hit by reflexivity.
    rewrite run_Cat_Opt_Class_miss by reflexivity.
    rewrite !run_Cat_Class_hit by reflexivity.
    destruct (run (Plus not_space) _) as [|st l]; [discriminate|].
    injection Hplus as ->. cbn [List.map head rest caps]. do 4 f_equal.
    apply (consumed_app (104%N :: 116%N :: 116%N :: 112%N :: 58%N :: 47%N :: 47%N :: c :: r)).
  - change (lit "https://" ++ (c :: r) ++ post)
      with (104%N :: 116%N :: 116%N :: 112%N :: 115%N :: 58%N :: 47%N :: 47%N :: c :: r ++ post).
    change (run (Group 1 ?R) ?st)
      with (List.map (fun st' => mk_mstate (rest st')
                        ((1%nat, consumed (rest st) (rest st')) :: caps st'))
                     (run R st)).
    rewrite !run_Cat_Class_hit by reflexivity.
    rewrite run_Cat_Opt_Class_hit by reflexivity.
    rewrite !run_Cat_Class_hit by reflexivity.
    destruct (run (Plus not_space) _) as [|st l]; [discriminate|].
    injection Hplus as ->. cbn [List.map head rest caps app]. do 4 f_equal.
    apply (consumed_app (104%N :: 116%N :: 116%N :: 112%N :: 115%N :: 58%N :: 47%N :: 47%N :: c :: r)).
Qed.

Lemma no_h_no_match (c : N) (s : list N) :
  (c =? 104)%N = false -> match_here url_pattern (c :: s) = None.
Proof.
  intros H. unfold match_here, url_pattern.
  change (run (Group 1 ?R) ?st)
    with (List.map (fun st' => mk_mstate (rest st')
                      ((1%nat, consumed (rest st) (rest st')) :: caps st'))
                   (run R st)).
  rewrite run_Cat_Class_miss; [reflexivity | exact H].
Qed.

Lemma scan_no_h (pre : list N) : forall pos s,
  no_h pre = true ->
  scan url_pattern pos 0 (pre ++ s) = scan url_pattern (pos + length pre) 0 s.
Proof.
  induction pre as [|c pre IH]; intros pos s H.
  - simpl. now rewrite Nat.add_0_r.
  - unfold no_h in H. simpl in H. apply andb_true_iff in H as [Hc Hpre].
    apply negb_true_iff in Hc.
    cbn [app]. rewrite scan_here, (no_h_no_match c _ Hc), (IH (S pos) s Hpre).
    f_equal. simpl. lia.
Qed.

Lemma scan_skip_app r (w : list N) : forall pos s,
  scan r pos (length w) (w ++ s) = scan r (pos + length w) 0 s.
Proof.
  induction w as [|c w IH]; intros pos s.
  - simpl. now rewrite Nat.add_0_r.
  - cbn [app length]. rewrite scan_skip, IH. f_equal. lia.
Qed.

Lemma no_link_scan (text : list N) (pos skip : nat) :
  contains text (lit "http") = false -> scan url_pattern pos skip text = [].
Proof.
  intros H. apply scan_none. intros pre suf ->.
  destruct (match_here url_pattern suf) as [st'|] eqn:Hm; [|reflexivity].
  apply url_match_prefix in Hm. apply (contains_suffix pre) in Hm. congruence.
Qed.

(** The one match in a text with one link. *)
Lemma finditer_one_link (pre scheme r post : list N) :
  no_h pre = true -> In scheme url_schemes -> r <> [] ->
  forallb not_space r = true -> ends_link post = true ->
  contains post (lit "http") = false ->
  finditer url_pattern (pre ++ scheme ++ r ++ post) =
    [mk_rmatch (length pre) (length pre + length (scheme ++ r)) [(1%nat, scheme ++ r)]].
Proof.
  intros Hpre Hscheme Hne Hr Hpost Hno.
  unfold finditer. rewrite scan_no_h by exact Hpre. simpl Nat.add.
  rewrite scan_here, (url_match scheme r post Hscheme Hne Hr Hpost).
  cbn [rest caps].
  assert (length (scheme ++ r ++ post) - length post = length (scheme ++ r))%nat as ->
    by (rewrite !length_app; lia).
  f_equal.
  assert (exists x u, scheme ++ r = x :: u) as (x & u & Hu)
    by (destruct Hscheme as [<-|[<-|[]]]; simpl; eauto).
  rewrite app_assoc, Hu. cbn [app length].
  replace (S (length u) - 1)%nat with (length u) by lia.
  rewrite scan_skip_app. now apply no_link_scan.
Qed.

(** X9. A link in the text is replaced by its markdown form: for a text
    with no letter h before the link, a link made of "http://" or
    "https://" and at least one character, none of them white space, and a
    rest that is empty or starts with white space and contains no "http",
    the result is the text with the link replaced by "[link](link)".  The
    link runs up to the next white space, so punctuation that follows it
    directly becomes part of the link. *)
Theorem X9_link_is_marked_up (pre scheme r post : list N) :
  no_h pre = true ->
  In scheme url_schemes ->
  r <> [] ->
  forallb not_space r = true ->
  ends_link post = true ->
  contains post (lit "http") = false ->
  re_sub url_pattern link_markup (pre ++ scheme ++ r ++ post) =
    pre ++ lit "[" ++ (scheme ++ r) ++ lit "](" ++ (scheme ++ r) ++ lit ")" ++ post.
Proof.
  intros Hpre Hscheme Hne Hr Hpost Hno. unfold re_sub.
  rewrite (finditer_one_link pre scheme r post) by assumption.
  cbn [sub_from m_start m_end]. unfold slice, link_markup. cbn [m_caps group Nat.eqb].
  rewrite Nat.sub_0_r, drop_0, take_app_length.
  rewrite (app_assoc scheme r post). set (u := scheme ++ r).
  rewrite <- length_app, (app_assoc pre u post), drop_app_length.
  repeat (rewrite <- app_assoc || rewrite <- app_comm_cons). reflexivity.
Qed.

Lemma X9_link_is_marked_up_witness :
  re_sub url_pattern link_markup
    (lit "Book at " ++ lit "https://" ++ lit "rome.example/tours)." ++ lit " today") =
  lit "Book at [https://rome.example/tours).](https://rome.example/tours).) today".
Proof.
  apply (X9_link_is_marked_up (lit "Book at ") (lit "https://")
           (lit "rome.example/tours).") (lit " today")).
  - reflexivity.
  - right. left. reflexivity.
  - discriminate.
  - reflexivity.
  - reflexivity.
  - reflexivity.
Defined.


Section ScriptProperties.
Context {udb : unicode_db}.

(** ** The script as a whole *)

Lemma search_loop_posts_first net query retries a later self :
  (S (posts self) <=
   posts (snd (search_loop net query retries (a :: later) self)))%nat.
Proof.
  cbn [search_loop].
  destruct (fetch net query (posts self)) as [text|e] eqn:Hf.
  - rewrite (search_attempt_ok _ _ _ _ _ _ Hf). simpl. lia.
  - rewrite (search_attempt_fail _ _ _ _ _ _ Hf).
    destruct (a =? retries - 1); [simpl; lia|].
    pose proof (search_loop_posts net query retries later
                  (mk_serper (cache self) (S (posts self)))) as H.
    simpl in H. lia.
Qed.

Lemma generate_plan_posts net model inp tool ss :
  truthy (destination inp) = true ->
  snd (fst (generate_plan net model inp tool ss)) = snd (initial_search net inp tool).
Proof.
  intros Hdest. unfold generate_plan. rewrite Hdest, plan_eq. simpl.
  destruct (chunk_loop _ _ _ _ _); reflexivity.
Qed.

(** X18. In a run triggered by the button in which the agent raises for
    some chunk, the session is left as it was and the page shows the
    status line, one error message and then whatever itinerary was stored
    before: a failed generation does not take the previous itinerary, or
    its calendar, off the page. *)
Theorem X18_failed_run_keeps_previous_itinerary (net : endpoint) (model : agent)
    (or_key serp_key : str) (inp : inputs) (ss : session) (i start_day : Z)
    (e0 : exn) :
  truthy or_key = true -> truthy serp_key = true ->
  truthy (destination inp) = true ->
  In (i, start_day) (enumerate (py_range 1 (num_days inp + 1) chunk_size)) ->
  raised (model (query_chunk inp (fst (initial_search net inp new_tool)) i start_day))
    = Some e0 ->
  exists e posted,
    script_run net model or_key serp_key inp true ss =
      (ss, posted,
       [Status (lit "Planning " ++ destination inp ++ lit "...");
        Error (lit "Error during planning: " ++ exn_descr e)] ++
       show_itinerary inp ss).
Proof.
  intros Hk1 Hk2 Hdest Hin Hraise.
  destruct (chunk_loop_raises model inp _ _ [] _ _ _ Hin Hraise) as [e He].
  exists e, (posts (snd (initial_search net inp new_tool))).
  unfold script_run, generate_plan. rewrite Hk1, Hk2, Hdest, plan_eq, He.
  reflexivity.
Qed.

(** X19. The tool, and with it the cache, is created anew on every run, so
    the cache never saves a request: a run that generates a plan with one
    of the two search modes of the page posts at least one request, and at
    most two. *)
Theorem X19_every_generation_posts (net : endpoint) (model : agent)
    (or_key serp_key : str) (inp : inputs) (ss : session) :
  truthy or_key = true -> truthy serp_key = true ->
  truthy (destination inp) = true ->
  search_mode inp ∈ search_modes ->
  (1 <= snd (fst (script_run net model or_key serp_key inp true ss)) <= 2)%nat.
Proof.
  intros Hk1 Hk2 Hdest Hmode.
  assert (snd (fst (script_run net model or_key serp_key inp true ss)) =
          posts (snd (initial_search net inp new_tool))) as ->.
  { unfold script_run. rewrite Hk1, Hk2. simpl andb. cbv iota.
    rewrite <- (generate_plan_posts net model inp new_tool ss Hdest).
    destruct (generate_plan net model inp new_tool ss) as [[ss' tool'] out].
    reflexivity. }
  unfold initial_search. rewrite bool_decide_eq_true_2 by exact Hmode.
  unfold search. change (cache new_tool !! essential_query inp) with
    ((∅ : gmap (list N) (list N)) !! essential_query inp).
  rewrite lookup_empty.
  change (py_range 0 default_retries 1) with [0; 1].
  pose proof (search_loop_posts_first net (essential_query inp) default_retries
                0 [1] new_tool) as Hlo.
  pose proof (search_loop_posts net (essential_query inp) default_retries
                [0; 1] new_tool) as Hhi.
  change (posts new_tool) with 0%nat in Hlo, Hhi.
  change (length [0; 1]) with 2%nat in Hhi. lia.
Qed.

(** X20. Without both keys, without a click, or with an empty destination
    a run posts no request, never consults the agent and leaves the
    session as it is: it shows the stored itinerary, preceded by the
    warning "Enter a destination." when only the destination is
    missing. *)
Theorem X20_idle_run_posts_nothing (net : endpoint) (model : agent)
    (or_key serp_key : str) (inp : inputs) (generate_button : bool) (ss : session) :
  truthy or_key && truthy serp_key && generate_button && truthy (destination inp)
    = false ->
  script_run net model or_key serp_key inp generate_button ss =
    (ss, 0%nat,
     (if truthy or_key && truthy serp_key && generate_button
      then [Warning (lit "Enter a destination.")] else []) ++
     show_itinerary inp ss).
Proof.
  intros H. unfold script_run, generate_plan.
  destruct (truthy or_key && truthy serp_key); [|reflexivity].
  destruct generate_button; [|reflexivity].
  simpl in H. rewrite H. reflexivity.
Qed.

End ScriptProperties.

Lemma X18_failed_run_keeps_previous_itinerary_witness :
  exists e posted,
    script_run (udb := ascii_digits) good_endpoint failing_agent (lit "k1") (lit "k2")
               (trip 4) true old_session =
      (old_session, posted,
       [Status (lit "Planning " ++ destination (trip 4) ++ lit "...");
        Error (lit "Error during planning: " ++ exn_descr e)] ++
       show_itinerary (udb := ascii_digits) (trip 4) old_session).
Proof.
  apply (X18_failed_run_keeps_previous_itinerary (udb := ascii_digits)
           good_endpoint failing_agent (lit "k1") (lit "k2") (trip 4) old_session
           1 4 agent_down).
  - reflexivity.
  - reflexivity.
  - reflexivity.
  - right. left. reflexivity.
  - vm_compute. reflexivity.
Defined.

Lemma X19_every_generation_posts_witness :
  (1 <= snd (fst (script_run (udb := ascii_digits) flaky_endpoint terse_agent
                             (lit "k1") (lit "k2") (trip 4) true old_session))
   <= 2)%nat.
Proof.
  apply (X19_every_generation_posts (udb := ascii_digits) flaky_endpoint terse_agent
           (lit "k1") (lit "k2") (trip 4) old_session).
  - reflexivity.
  - reflexivity.
  - reflexivity.
  - vm_compute. left.
Defined.

Lemma X20_idle_run_posts_nothing_witness :
  script_run (udb := ascii_digits) good_endpoint terse_agent [] (lit "k2")
             (trip 4) true old_session =
    (old_session, 0%nat, [] ++ show_itinerary (udb := ascii_digits) (trip 4) old_session).
Proof.
  apply (X20_idle_run_posts_nothing (udb := ascii_digits) good_endpoint terse_agent
           [] (lit "k2") (trip 4) true old_session).
  reflexivity.
Defined.
